(** * sbi: importance-weighted NPE-B objective and the Binomial-Gamma potential

    A shallow embedding of

    - [sbi/inference/trainers/npe/npe_b.py]
      ([NPE_B._log_prob_proposal_posterior]) and
    - [tutorials/example_01_utils.py] ([BinomialGammaPotential]),

    together with the tensor operations of the numeric backend that the two
    files call.

    Numbers.  A tensor element is an extended real: a real number or one of
    the three non-finite values of the backend (+inf, -inf, nan).  Arithmetic
    on finite values is exact; rounding, overflow, underflow and signed
    zeros are not modelled.  Division by zero and the other operations on
    non-finite values follow the backend's conventions.

    Tensors.  A tensor is a shape together with an indexing function; the
    operations compute the shape of their result and raise where the backend
    raises (shapes that do not broadcast, an index out of range, an empty
    [stack]). *)

From Stdlib Require Import String.
From Stdlib Require Import Reals Lra Lia List Arith Bool Permutation.
Import ListNotations.

(** ** Exceptions and results *)

Inductive exn : Type :=
| AssertionError (msg : string)
| RuntimeError (msg : string)
| IndexError.

(** A value, or the exception that was raised. *)
Inductive result (A : Type) : Type :=
| Ok (a : A)
| Raise (e : exn).

Arguments Ok {A} a.
Arguments Raise {A} e.

(** Sequencing: an exception ends the computation. *)
Definition rbind {A B : Type} (c : result A) (k : A -> result B) : result B :=
  match c with
  | Ok a => k a
  | Raise e => Raise e
  end.

Definition is_ok {A : Type} (c : result A) : bool :=
  match c with
  | Ok _ => true
  | Raise _ => false
  end.

Declare Scope result_scope.
Delimit Scope result_scope with result.
Notation "x <- c ;; k" := (rbind c (fun x => k))
  (at level 61, c at next level, right associativity) : result_scope.

(** Python's [assert cond, msg]. *)
Definition py_assert (cond : bool) (msg : string) : result unit :=
  if cond then Ok tt else Raise (AssertionError msg).

(** ** Tensor elements *)

Inductive scalar : Type :=
| Fin (r : R)
| PInf
| NInf
| NaN.

(** [torch.isfinite] on one element. *)
Definition isfinite (a : scalar) : bool :=
  match a with
  | Fin _ => true
  | _ => false
  end.

(** The sign of a real number. *)
Definition sign (x : R) : comparison :=
  match total_order_T x 0 with
  | inleft (left _) => Lt
  | inleft (right _) => Eq
  | inright _ => Gt
  end.

Definition sneg (a : scalar) : scalar :=
  match a with
  | Fin x => Fin (- x)
  | PInf => NInf
  | NInf => PInf
  | NaN => NaN
  end.

(** Addition: +inf plus -inf is nan. *)
Definition sadd (a b : scalar) : scalar :=
  match a, b with
  | NaN, _ | _, NaN => NaN
  | Fin x, Fin y => Fin (x + y)
  | PInf, NInf | NInf, PInf => NaN
  | PInf, _ | _, PInf => PInf
  | NInf, _ | _, NInf => NInf
  end.

(** An infinite value scaled by a finite one. *)
Definition inf_times (i : scalar) (x : R) : scalar :=
  match sign x with
  | Gt => i
  | Lt => sneg i
  | Eq => NaN
  end.

(** Multiplication: zero times an infinite value is nan. *)
Definition smul (a b : scalar) : scalar :=
  match a, b with
  | NaN, _ | _, NaN => NaN
  | Fin x, Fin y => Fin (x * y)
  | Fin x, i => inf_times i x
  | i, Fin y => inf_times i y
  | PInf, PInf | NInf, NInf => PInf
  | PInf, NInf | NInf, PInf => NInf
  end.

(** Division; the zero of a denominator is the positive zero (the only zero
    the code divides by is the one [torch.zeros] creates). *)
Definition sdiv (a b : scalar) : scalar :=
  match a, b with
  | NaN, _ | _, NaN => NaN
  | Fin x, Fin y =>
      match sign y with
      | Eq => match sign x with
              | Gt => PInf
              | Lt => NInf
              | Eq => NaN
              end
      | _ => Fin (x / y)
      end
  | Fin _, _ => Fin 0
  | i, Fin y => match sign y with
                | Lt => sneg i
                | _ => i
                end
  | _, _ => NaN
  end.

(** The exponential, exact on finite values: it is positive there, since
    underflow to 0 and overflow to +inf are not modelled; [exp(-inf)] is
    0. *)
Definition sexp (a : scalar) : scalar :=
  match a with
  | Fin x => Fin (exp x)
  | PInf => PInf
  | NInf => Fin 0
  | NaN => NaN
  end.

(** The sum of a sequence of elements, accumulated from zero. *)
Definition ssum (l : list scalar) : scalar := fold_left sadd l (Fin 0).

(** The real value of a finite element (0 for the others). *)
Definition real_of (a : scalar) : R :=
  match a with
  | Fin x => x
  | _ => 0%R
  end.

(** ** Tensors *)

Record Tensor : Type := mkTensor {
  shape : list nat;
  get : list nat -> scalar
}.

Module Torch.

(** *** Index arithmetic *)

Definition numel (s : list nat) : nat := fold_right Nat.mul 1 s.

(** All the indices of a shape, in row-major order. *)
Fixpoint indices (s : list nat) : list (list nat) :=
  match s with
  | [] => [[]]
  | d :: s' => flat_map (fun i => map (cons i) (indices s')) (seq 0 d)
  end.

(** Row-major offset of an index, and the index of an offset. *)
Fixpoint ravel (s idx : list nat) : nat :=
  match s, idx with
  | _ :: s', i :: idx' => i * numel s' + ravel s' idx'
  | _, _ => 0
  end.

Fixpoint unravel (s : list nat) (o : nat) : list nat :=
  match s with
  | [] => []
  | _ :: s' => (o / numel s') :: unravel s' (o mod numel s')
  end.

Definition insert_at (d i : nat) (idx : list nat) : list nat :=
  firstn d idx ++ i :: skipn d idx.

Definition remove_at (d : nat) (s : list nat) : list nat :=
  firstn d s ++ skipn (S d) s.

Definition swap (d0 d1 : nat) (l : list nat) : list nat :=
  map (fun k => nth (if k =? d0 then d1 else if k =? d1 then d0 else k) l 0)
      (seq 0 (length l)).

(** *** Broadcasting *)

Fixpoint broadcast_rev (r1 r2 : list nat) : option (list nat) :=
  match r1, r2 with
  | [], r | r, [] => Some r
  | a :: r1', b :: r2' =>
      match broadcast_rev r1' r2' with
      | None => None
      | Some r =>
          if a =? b then Some (a :: r)
          else if a =? 1 then Some (b :: r)
          else if b =? 1 then Some (a :: r)
          else None
      end
  end.

(** Shapes are aligned at their last dimension; two sizes are compatible
    when they are equal or one of them is 1. *)
Definition broadcast_shapes (s1 s2 : list nat) : option (list nat) :=
  option_map (@rev nat) (broadcast_rev (rev s1) (rev s2)).

(** The index, in an operand of shape [s], of the element that is read for
    the index [idx] of the broadcast result. *)
Definition bindex (s idx : list nat) : list nat :=
  map (fun di => if fst di =? 1 then 0 else snd di)
      (combine s (skipn (length idx - length s) idx)).

(** A binary elementwise operation with broadcasting. *)
Definition broadcast2 (f : scalar -> scalar -> scalar) (t1 t2 : Tensor)
  : result Tensor :=
  match broadcast_shapes (shape t1) (shape t2) with
  | None => Raise (RuntimeError "The size of tensor a must match the size of tensor b")
  | Some s =>
      Ok {| shape := s;
            get := fun idx => f (get t1 (bindex (shape t1) idx))
                                (get t2 (bindex (shape t2) idx)) |}
  end.

Definition add := broadcast2 sadd.
Definition mul := broadcast2 smul.
Definition div := broadcast2 sdiv.

(** [a += b]: the result must have the shape of [a]. *)
Definition iadd (a b : Tensor) : result Tensor :=
  match broadcast_shapes (shape a) (shape b) with
  | None => Raise (RuntimeError "The size of tensor a must match the size of tensor b")
  | Some s =>
      if list_eq_dec Nat.eq_dec s (shape a)
      then Ok {| shape := shape a;
                 get := fun idx => sadd (get a idx) (get b (bindex (shape b) idx)) |}
      else Raise (RuntimeError "output with shape doesn't match the broadcast shape")
  end.

(** *** Elementwise operations and constructors *)

Definition map_tensor (f : scalar -> scalar) (t : Tensor) : Tensor :=
  {| shape := shape t; get := fun idx => f (get t idx) |}.

Definition exp : Tensor -> Tensor := map_tensor sexp.

(** A Python float times a tensor. *)
Definition scale (c : scalar) : Tensor -> Tensor := map_tensor (smul c).

(** [torch.full] and its instances. *)
Definition full (s : list nat) (c : scalar) : Tensor :=
  {| shape := s; get := fun _ => c |}.

Definition zeros (s : list nat) : Tensor := full s (Fin 0).

Definition ones_like (t : Tensor) : Tensor := full (shape t) (Fin 1).

(** [t.isfinite().all()] *)
Definition isfinite_all (t : Tensor) : bool :=
  forallb (fun idx => isfinite (get t idx)) (indices (shape t)).

(** *** Views *)

(** [t.size(0)] and [t.shape[0]]. *)
Definition size0 (t : Tensor) : result nat :=
  match shape t with
  | [] => Raise IndexError
  | d :: _ => Ok d
  end.

(** [t.unsqueeze(0)] *)
Definition unsqueeze0 (t : Tensor) : Tensor :=
  {| shape := 1 :: shape t; get := fun idx => get t (tl idx) |}.

Definition view (t : Tensor) (s : list nat) : Tensor :=
  {| shape := s; get := fun idx => get t (unravel (shape t) (ravel s idx)) |}.

(** [t.reshape(d1, ..., dn, -1)]: the last size is inferred. *)
Definition reshape_infer (t : Tensor) (pre : list nat) : result Tensor :=
  let p := numel pre in
  let n := numel (shape t) in
  if p =? 0 then
    Raise (RuntimeError "cannot reshape: the unspecified dimension size -1 can be any value")
  else if n mod p =? 0 then Ok (view t (pre ++ [n / p]))
  else Raise (RuntimeError "shape is invalid for input size").

(** The slice [lo:] or [lo:hi] of dimension [d], with Python's clamping of
    the bounds. *)
Definition narrow (d lo : nat) (hi : option nat) (t : Tensor) : result Tensor :=
  match nth_error (shape t) d with
  | None => Raise IndexError
  | Some n =>
      let hi' := match hi with Some h => Nat.min h n | None => n end in
      let lo' := Nat.min lo n in
      Ok {| shape := firstn d (shape t) ++ (hi' - lo') :: skipn (S d) (shape t);
            get := fun idx =>
                     get t (firstn d idx ++ (lo' + nth d idx 0) :: skipn (S d) idx) |}
  end.

(** Indexing dimension [d] with the integer [i]. *)
Definition select (d i : nat) (t : Tensor) : result Tensor :=
  match nth_error (shape t) d with
  | None => Raise IndexError
  | Some n =>
      if i <? n
      then Ok {| shape := remove_at d (shape t);
                 get := fun idx => get t (insert_at d i idx) |}
      else Raise IndexError
  end.

(** [torch.stack(ts)]: a new leading dimension; the list must not be empty
    and the tensors must have one shape. *)
Definition stack (ts : list Tensor) : result Tensor :=
  match ts with
  | [] => Raise (RuntimeError "stack expects a non-empty TensorList")
  | t0 :: _ =>
      if forallb (fun t => if list_eq_dec Nat.eq_dec (shape t) (shape t0)
                           then true else false) ts
      then Ok {| shape := length ts :: shape t0;
                 get := fun idx => get (nth (hd 0 idx) ts t0) (tl idx) |}
      else Raise (RuntimeError "stack expects each tensor to be equal size")
  end.

(** [t.transpose(d0, d1)] *)
Definition transpose (d0 d1 : nat) (t : Tensor) : result Tensor :=
  if (d0 <? length (shape t)) && (d1 <? length (shape t))
  then Ok {| shape := swap d0 d1 (shape t);
             get := fun idx => get t (swap d0 d1 idx) |}
  else Raise IndexError.

(** [t.sum(d)] *)
Definition sum (d : nat) (t : Tensor) : result Tensor :=
  match nth_error (shape t) d with
  | None => Raise IndexError
  | Some n =>
      Ok {| shape := remove_at d (shape t);
            get := fun idx =>
                     ssum (map (fun i => get t (insert_at d i idx)) (seq 0 n)) |}
  end.

(** [torch.sum(t, dim=-1)] *)
Definition sum_last (t : Tensor) : result Tensor :=
  match shape t with
  | [] => Ok t
  | _ :: _ => sum (length (shape t) - 1) t
  end.

Fixpoint expand_index (s idx : list nat) : list nat :=
  match s with
  | [] => []
  | d :: s' =>
      if d =? 1 then 0 :: expand_index s' idx
      else hd 0 idx :: expand_index s' (tl idx)
  end.

(** [t.squeeze()]: every dimension of size 1 is removed. *)
Definition squeeze (t : Tensor) : Tensor :=
  {| shape := filter (fun d => negb (d =? 1)) (shape t);
     get := fun idx => get t (expand_index (shape t) idx) |}.

End Torch.

(** ** Objects the two files receive from their callers *)

(** A distribution object (the prior, one entry of the proposal history):
    what the code uses of it is its [log_prob] method. *)
Record Distribution : Type := mkDistribution {
  log_prob : Tensor -> Tensor
}.

(** The conditional density estimator: [log_prob(input, condition)]. *)
Record Estimator : Type := mkEstimator {
  net_log_prob : Tensor -> Tensor -> Tensor
}.

(** * [npe_b.py] *)

Module NPE_B.

(** The calls of [log_prob] methods, in the order in which they are made. *)
Inductive event : Type :=
| PriorLogProb
| ProposalLogProb (i : nat)
| NetLogProb.

(** A computation that may raise and records the [log_prob] calls it makes;
    the record is kept when it raises. *)
Definition M (A : Type) : Type := list event -> result A * list event.

Definition ret {A : Type} (a : A) : M A := fun tr => (Ok a, tr).

Definition bind {A B : Type} (c : M A) (k : A -> M B) : M B :=
  fun tr =>
    match c tr with
    | (Ok a, tr') => k a tr'
    | (Raise e, tr') => (Raise e, tr')
    end.

Definition lift {A : Type} (r : result A) : M A := fun tr => (r, tr).

Definition call (e : event) (value : Tensor) : M Tensor :=
  fun tr => (Ok value, tr ++ [e]).

Declare Scope npe_scope.
Delimit Scope npe_scope with npe.
Notation "x <- c ;; k" := (bind c (fun x => k))
  (at level 61, c at next level, right associativity) : npe_scope.
Notation "c ;; k" := (bind c (fun _ => k))
  (at level 61, right associativity) : npe_scope.

(** The fields of the trainer that [_log_prob_proposal_posterior] reads. *)
Record NPE_B : Type := mkNPE_B {
  _prior : Distribution;
  _round : nat;
  _proposal_roundwise : list Distribution;
  _neural_net : Estimator
}.

(** Modelled from the spec: [sbi.utils.assert_all_finite] is defined in
    another module of the package.  It raises a numerical error whose
    message carries the description of the quantity when the quantity holds
    a non-finite value. *)
Definition assert_all_finite (quantity : Tensor) (description : string)
  : M unit :=
  lift (py_assert (Torch.isfinite_all quantity)
                  ("NaN/Inf present in " ++ description ++ ".")).

Local Open Scope npe_scope.

(** Lines 94-96: the loop over the proposal history; [i] is the position of
    the first density of [densities] in the history. *)
Fixpoint accumulate (prop : scalar) (theta : Tensor)
    (densities : list Distribution) (i : nat) (proposal : Tensor) : M Tensor :=
  match densities with
  | [] => ret proposal
  | density :: rest =>
      lp <- call (ProposalLogProb i) (log_prob density theta) ;;
      assert_all_finite lp "proposal eval" ;;
      lp' <- call (ProposalLogProb i) (log_prob density theta) ;;
      proposal' <- lift (Torch.iadd proposal (Torch.scale prop (Torch.exp lp'))) ;;
      accumulate prop theta rest (S i) proposal'
  end.

(** Line 91: [prop = 1.0 / (self._round + 1)]. *)
Definition prop (self : NPE_B) : scalar := Fin (1 / INR (_round self + 1)).

(** Lines 91-96: the mixture proposal density. *)
Definition mixture_proposal (self : NPE_B) (theta : Tensor) : M Tensor :=
  n <- lift (Torch.size0 theta) ;;
  accumulate (prop self) theta (_proposal_roundwise self) 0 (Torch.zeros [n]).

(** Lines 84-99: the importance weights. *)
Definition importance_weights (self : NPE_B) (theta : Tensor) : M Tensor :=
  lp <- call PriorLogProb (log_prob (_prior self) theta) ;;
  assert_all_finite lp "prior eval" ;;
  lp' <- call PriorLogProb (log_prob (_prior self) theta) ;;
  let prior := Torch.exp lp' in
  proposal <- mixture_proposal self theta ;;
  lift (Torch.div prior proposal).

(** Lines 63-101.  The arguments [masks] and [proposal] are not read. *)
Definition _log_prob_proposal_posterior (self : NPE_B)
    (theta x masks : Tensor) (proposal : option Distribution) : M Tensor :=
  weights <- importance_weights self theta ;;
  nn <- call NetLogProb
          (net_log_prob (_neural_net self) (Torch.unsqueeze0 theta) x) ;;
  lift (Torch.mul weights nn).

(** The events recorded by the loop over [k] history entries starting at
    position [i]: two evaluations of each entry. *)
Fixpoint loop_events (i k : nat) : list event :=
  match k with
  | 0 => []
  | S k' => ProposalLogProb i :: ProposalLogProb i :: loop_events (S i) k'
  end.

(** The trainer with another proposal history. *)
Definition with_history (self : NPE_B) (history : list Distribution) : NPE_B :=
  mkNPE_B (_prior self) (_round self) history (_neural_net self).

(** The numerical error that [assert_all_finite] raises for a
    description. *)
Definition numerical_error (description : string) : exn :=
  AssertionError ("NaN/Inf present in " ++ description ++ ".").

(** *** The spec's description of the result *)

(** The mixture proposal density at sample [b], in the words of the spec:
    the sum over the proposal history of [1/(round_index + 1)] times the
    exponential of the entry's log-density. *)
Definition spec_mixture_density (self : NPE_B) (theta : Tensor) (b : nat)
  : scalar :=
  ssum (map (fun density =>
               smul (Fin (1 / INR (_round self + 1)))
                    (sexp (get (log_prob density theta) [b])))
            (_proposal_roundwise self)).

(** The unweighted average of the exponentiated log-densities of the
    history entries at sample [b]: their sum divided by their number. *)
Definition spec_unweighted_average (self : NPE_B) (theta : Tensor) (b : nat)
  : scalar :=
  sdiv (ssum (map (fun density => sexp (get (log_prob density theta) [b]))
                  (_proposal_roundwise self)))
       (Fin (INR (length (_proposal_roundwise self)))).

(** The sum of the densities of the history entries at sample [b], as a
    real number. *)
Definition density_sum (history : list Distribution) (theta : Tensor)
    (b : nat) : R :=
  fold_right Rplus 0%R
    (map (fun density => Rtrigo_def.exp (real_of (get (log_prob density theta) [b])))
         history).

(** Every entry of the history has a finite log-density of shape
    [(batch_size,)] at [theta]. *)
Definition finite_history (history : list Distribution) (theta : Tensor)
    (batch_size : nat) : Prop :=
  Forall (fun density =>
            shape (log_prob density theta) = [batch_size] /\
            Torch.isfinite_all (log_prob density theta) = true) history.

End NPE_B.

(** * [example_01_utils.py] *)

(** The log-densities of the two library distributions the potential uses,
    per element: [Binomial(total_count=1, probs).log_prob(value)] and
    [InverseGamma(concentration, rate).log_prob(value)].  They are total
    functions on tensor elements: the library's validation of parameters
    and values is not modelled. *)
Class TorchDistributions : Type := {
  binomial_log_prob : scalar -> scalar -> scalar;
  inverse_gamma_log_prob : scalar -> scalar -> scalar -> scalar
}.

(** [sbi.utils.torchutils.atleast_2d], which is defined in another module of
    the package, is taken as given. *)
Class TorchUtils : Type := {
  atleast_2d : Tensor -> Tensor
}.

Module Potential.

Local Open Scope result_scope.

(** [x for x in xs], where evaluating an element may raise. *)
Fixpoint comprehension {A B : Type} (f : A -> result B) (xs : list A)
  : result (list B) :=
  match xs with
  | [] => Ok []
  | x :: xs' =>
      y <- f x ;;
      ys <- comprehension f xs' ;;
      Ok (y :: ys)
  end.

(** *** Distribution objects *)

(** [Binomial(probs=p)]: the batch shape is the shape of [p]. *)
Record Binomial : Type := mkBinomial {
  probs : Tensor
}.

(** [InverseGamma(concentration=c, rate=r)]: the two parameters are
    broadcast against each other on construction. *)
Record InverseGamma : Type := mkInverseGamma {
  concentration : Tensor;
  rate : Tensor;
  batch_shape : list nat
}.

(** The constructor of [InverseGamma]. *)
Definition new_InverseGamma (c r : Tensor) : result InverseGamma :=
  match Torch.broadcast_shapes (shape c) (shape r) with
  | None => Raise (RuntimeError "The size of tensor a must match the size of tensor b")
  | Some s => Ok {| concentration := c; rate := r; batch_shape := s |}
  end.

Section LogProb.
Context `{TorchDistributions}.

(** [log_prob]: the value is broadcast against the batch shape. *)
Definition Binomial_log_prob (d : Binomial) (value : Tensor) : result Tensor :=
  Torch.broadcast2 binomial_log_prob (probs d) value.

Definition InverseGamma_log_prob (d : InverseGamma) (value : Tensor)
  : result Tensor :=
  match Torch.broadcast_shapes (batch_shape d) (shape value) with
  | None => Raise (RuntimeError "The size of tensor a must match the size of tensor b")
  | Some s =>
      Ok {| shape := s;
            get := fun idx =>
              inverse_gamma_log_prob
                (get (concentration d) (Torch.bindex (shape (concentration d)) idx))
                (get (rate d) (Torch.bindex (shape (rate d)) idx))
                (get value (Torch.bindex (shape value) idx)) |}
  end.

End LogProb.

(** *** The potential *)

(** [concentration_scaling: Union[Tensor, float]] *)
Inductive scaling : Type :=
| Float (c : scalar)
| Tens (t : Tensor).

(** The fields of the potential. *)
Record BinomialGammaPotential : Type := mkPotential {
  prior : Distribution;
  x_o : Tensor;
  concentration_scaling : scaling
}.

(** Modelled from the spec: [BasePotential.__init__] is defined in another
    module of the package.  The potential is constructed once for a fixed
    observed dataset [x_o] and a prior, and keeps the two. *)
Definition BasePotential_init (prior : Distribution) (x_o : Tensor)
  : Distribution * Tensor := (prior, x_o).

(** Lines 14-31. *)
Definition __init__ (prior : Distribution) (x_o : Tensor)
    (concentration_scaling : scaling) : result BinomialGammaPotential :=
  let base := BasePotential_init prior x_o in
  concentration_scaling <-
    match concentration_scaling with
    | Tens t =>
        num_trials <- Torch.size0 x_o ;;
        n <- Torch.size0 t ;;
        _ <- py_assert (n =? num_trials) "" ;;
        t' <- Torch.reshape_infer t [1; num_trials] ;;
        Ok (Tens t')
    | Float c => Ok (Float c)
    end ;;
  Ok {| prior := fst base; x_o := snd base;
        concentration_scaling := concentration_scaling |}.

Section Evaluation.
Context `{TorchDistributions}.

(** [self.concentration_scaling * torch.ones_like(beta)] *)
Definition scaled_ones (self : BinomialGammaPotential) (beta : Tensor)
  : result Tensor :=
  match concentration_scaling self with
  | Float c => Ok (Torch.scale c (Torch.ones_like beta))
  | Tens t => Torch.mul t (Torch.ones_like beta)
  end.

(** Lines 42-68: the joint log-likelihood per sample and trial. *)
Definition joint_likelihood (self : BinomialGammaPotential) (theta : Tensor)
  : result Tensor :=
  batch_size <- Torch.size0 theta ;;
  num_trials <- Torch.size0 (x_o self) ;;
  theta <- Torch.reshape_infer theta [batch_size; 1] ;;
  beta <- Torch.narrow 2 0 (Some 1) theta ;;
  rhos <- Torch.narrow 2 1 None theta ;;
  terms <- comprehension
             (fun rho_idx =>
                p <- Torch.select 2 rho_idx rhos ;;
                v <- Torch.select 1 (1 + rho_idx) (x_o self) ;;
                Binomial_log_prob (mkBinomial p) v)
             (seq 0 (last (shape rhos) 0)) ;;
  stacked <- Torch.stack terms ;;
  stacked <- Torch.transpose 0 1 stacked ;;
  logprob_choices <- Torch.transpose 1 2 stacked ;;
  c <- scaled_ones self beta ;;
  d <- new_InverseGamma c beta ;;
  rts <- Torch.narrow 1 0 (Some 1) (x_o self) ;;
  rts <- Torch.reshape_infer rts [1; num_trials] ;;
  logprob_rts <- InverseGamma_log_prob d rts ;;
  choices <- Torch.sum_last logprob_choices ;;
  Torch.add choices (Torch.squeeze logprob_rts).

(** [t.shape == torch.Size(s)] *)
Definition shape_eqb (s1 s2 : list nat) : bool :=
  if list_eq_dec Nat.eq_dec s1 s2 then true else false.

(** Lines 41-74.  In the assertion of line 70, [theta] is the reshaped
    tensor, whose first size is [batch_size]. *)
Definition iid_likelihood (self : BinomialGammaPotential) (theta : Tensor)
  : result Tensor :=
  joint_likelihood <- joint_likelihood self theta ;;
  batch_size <- Torch.size0 theta ;;
  num_trials <- Torch.size0 (x_o self) ;;
  _ <- py_assert (shape_eqb (shape joint_likelihood) [batch_size; num_trials]) "" ;;
  _ <- py_assert (Torch.isfinite_all joint_likelihood)
         "Joint likelihood contains infs or nans" ;;
  Torch.sum 1 joint_likelihood.

(** *** The spec's description of the result *)

(** The concentration of the inverse-gamma term at trial [t]: the scalar,
    or the entry of the per-trial tensor in its [(1, num_trials, 1)]
    layout. *)
Definition concentration_at (self : BinomialGammaPotential) (t : nat) : scalar :=
  match concentration_scaling self with
  | Float c => c
  | Tens cs => get cs [0; t; 0]
  end.

(** The joint log-likelihood of sample [b] and trial [t] in the words of
    the spec: the sum over the [K] binomial components of the
    log-probability of observation column [1 + k] under the success
    probability at position [1 + k], plus the inverse-gamma log-density of
    observation column 0 with the rate at position 0. *)
Definition spec_joint (self : BinomialGammaPotential) (theta : Tensor)
    (K b t : nat) : scalar :=
  sadd (ssum (map (fun k => binomial_log_prob (get theta [b; 1 + k])
                                              (get (x_o self) [t; 1 + k]))
                  (seq 0 K)))
       (inverse_gamma_log_prob (concentration_at self t)
                               (get theta [b; 0]) (get (x_o self) [t; 0])).

(** The log-likelihood of sample [b]: the sum over the trials. *)
Definition spec_iid (self : BinomialGammaPotential) (theta : Tensor)
    (K T b : nat) : scalar :=
  ssum (map (fun t => spec_joint self theta K b t) (seq 0 T)).

(** The concentration scaling is a float or a tensor in the
    [(1, num_trials, 1)] layout. *)
Definition per_trial_scaling (self : BinomialGammaPotential) (T : nat) : Prop :=
  match concentration_scaling self with
  | Float _ => True
  | Tens cs => shape cs = [1; T; 1]
  end.

(** *** Gradient tracking *)

(** A tensor together with whether a gradient graph is attached to it. *)
Record Tracked : Type := mkTracked {
  value : Tensor;
  has_graph : bool
}.

(** A computation under the global gradient mode, which it may change. *)
Definition G (A : Type) : Type := bool -> result A * bool.

(** [with torch.set_grad_enabled(mode): body]: the previous mode is
    restored on exit, also when the body raises. *)
Definition with_grad_enabled {A : Type} (mode : bool) (body : G A) : G A :=
  fun previous => (fst (body mode), previous).

(** An operation on tensors: its result carries a graph when the mode is on
    and one of its inputs requires gradients. *)
Definition op (inputs_require_grad : bool) (r : result Tensor) : G Tracked :=
  fun mode =>
    (t <- r ;; Ok {| value := t; has_graph := mode && inputs_require_grad |},
     mode).

(** Sequencing under the gradient mode. *)
Definition gbind {A B : Type} (c : G A) (k : A -> G B) : G B :=
  fun mode =>
    match c mode with
    | (Ok a, mode') => k a mode'
    | (Raise e, mode') => (Raise e, mode')
    end.

(** Two outcomes carry the same tensor, or raise the same exception. *)
Definition same_value (r1 r2 : result Tracked) : Prop :=
  match r1, r2 with
  | Ok a, Ok b => value a = value b
  | Raise e1, Raise e2 => e1 = e2
  | _, _ => False
  end.

Context `{TorchUtils}.

(** Lines 33-39. *)
Definition __call__ (self : BinomialGammaPotential) (theta : Tracked)
    (track_gradients : bool) : G Tracked :=
  let theta := {| value := atleast_2d (value theta);
                  has_graph := has_graph theta |} in
  gbind (with_grad_enabled track_gradients
           (op (has_graph theta) (iid_likelihood self (value theta))))
        (fun iid_ll =>
  gbind (op (has_graph theta) (Ok (log_prob (prior self) (value theta))))
        (fun prior_lp =>
  op (has_graph iid_ll || has_graph prior_lp)
     (Torch.add (value iid_ll) (value prior_lp)))).

End Evaluation.

End Potential.

(** * Descriptions of tensors *)

(** A tensor of shape [(n0, n1)] with the given elements. *)
Definition is2 (t : Tensor) (n0 n1 : nat) (f : nat -> nat -> scalar) : Prop :=
  shape t = [n0; n1] /\
  forall i j, i < n0 -> j < n1 -> get t [i; j] = f i j.

(** A tensor of shape [(n0, n1, n2)] with the given elements. *)
Definition is3 (t : Tensor) (n0 n1 n2 : nat) (f : nat -> nat -> nat -> scalar)
  : Prop :=
  shape t = [n0; n1; n2] /\
  forall i j k, i < n0 -> j < n1 -> k < n2 -> get t [i; j; k] = f i j k.

(** * Concrete inputs *)

Module Examples.

(** A batch of [n] samples of [d] parameters each, all equal to [c]. *)
Definition constant_batch (n d : nat) (c : R) : Tensor := Torch.full [n; d] (Fin c).

(** A distribution whose density is 1 at every point the examples evaluate
    (the uniform distribution on a unit box): its log-density is 0. *)
Definition unit_box : Distribution :=
  {| log_prob := fun theta => Torch.zeros (firstn 1 (shape theta)) |}.

(** A distribution whose log-density evaluates to nan. *)
Definition broken : Distribution :=
  {| log_prob := fun theta => Torch.full (firstn 1 (shape theta)) NaN |}.

(** An estimator whose log-probability is -1 for every sample. *)
Definition flat_net : Estimator :=
  {| net_log_prob := fun input _ =>
       Torch.full (firstn 1 (tl (shape input))) (Fin (-1)) |}.

(** Two samples of one parameter, and their observations. *)
Definition theta2 : Tensor := constant_batch 2 1 (1 / 2).
Definition x2 : Tensor := constant_batch 2 1 0.

(** First round, nothing in the proposal history. *)
Definition trainer_round0 : NPE_B.NPE_B :=
  NPE_B.mkNPE_B unit_box 0 [] flat_net.

(** Round index 1 with a history of length 1 whose entry is the prior. *)
Definition trainer_round1 : NPE_B.NPE_B :=
  NPE_B.mkNPE_B unit_box 1 [unit_box] flat_net.

(** Round index 0 with a history of length 1 whose entry is the prior. *)
Definition trainer_single : NPE_B.NPE_B :=
  NPE_B.mkNPE_B unit_box 0 [unit_box] flat_net.

(** A history whose second entry has a non-finite log-density. *)
Definition trainer_broken : NPE_B.NPE_B :=
  NPE_B.mkNPE_B unit_box 1 [unit_box; broken] flat_net.

(** The two library log-densities in closed form, for one trial per count
    (the default [total_count]), a success probability inside (0, 1) and
    concentration 1, where the log-gamma term vanishes. *)
Definition bernoulli_log_pmf (p x : scalar) : scalar :=
  match p, x with
  | Fin p, Fin x => Fin (x * ln p + (1 - x) * ln (1 - p))
  | _, _ => NaN
  end.

Definition inverse_gamma_unit_log_pdf (concentration rate value : scalar)
  : scalar :=
  match rate, value with
  | Fin b, Fin v => Fin (ln b - 2 * ln v - b / v)
  | _, _ => NaN
  end.

#[local] Instance closed_form : TorchDistributions :=
  {| binomial_log_prob := bernoulli_log_pmf;
     inverse_gamma_log_prob := inverse_gamma_unit_log_pdf |}.

(** One observed trial: a continuous outcome and one count. *)
Definition x_one_trial : Tensor := Torch.full [1; 2] (Fin 1).

(** Four observed trials. *)
Definition x_four_trials : Tensor := Torch.full [4; 2] (Fin 1).

(** Two candidate samples: a rate and one success probability each. *)
Definition theta_two_samples : Tensor := Torch.full [2; 2] (Fin (1 / 2)).

Definition potential_one_trial : Potential.BinomialGammaPotential :=
  Potential.mkPotential unit_box x_one_trial (Potential.Float (Fin 1)).

Definition potential_four_trials : Potential.BinomialGammaPotential :=
  Potential.mkPotential unit_box x_four_trials (Potential.Float (Fin 1)).

(** Three observed trials, and a concentration scaling with two values per
    trial. *)
Definition x_three_trials : Tensor := Torch.full [3; 2] (Fin 1).
Definition scaling_3x2 : Tensor := Torch.full [3; 2] (Fin 1).
Definition scaling_3 : Tensor := Torch.full [3] (Fin 1).
Definition scaling_2 : Tensor := Torch.full [2] (Fin 1).

End Examples.

(** * Further descriptions and inputs *)

Module PotentialSpec.

Section Values.
Context `{TorchDistributions}.

(** The joint log-likelihood of sample [b] and trial [t] for the
    observations [x] and the concentration [conc t] at trial [t]: the
    binomial terms of the columns [1 .. K] plus the inverse-gamma term of
    column 0. *)
Definition joint_value (x : Tensor) (conc : nat -> scalar) (theta : Tensor)
    (K b t : nat) : scalar :=
  sadd (ssum (map (fun k => binomial_log_prob (get theta [b; 1 + k])
                                              (get x [t; 1 + k]))
                  (seq 0 K)))
       (inverse_gamma_log_prob (conc t) (get theta [b; 0]) (get x [t; 0])).

(** Its sum over [T] trials. *)
Definition iid_value (x : Tensor) (conc : nat -> scalar) (theta : Tensor)
    (K T b : nat) : scalar :=
  ssum (map (joint_value x conc theta K b) (seq 0 T)).

(** The inputs on which [iid_likelihood] returns: a batch of [B >= 1]
    samples of [1 + K] parameters with [K >= 1], [T >= 1] observed trials
    of at least [1 + K] columns, one sample or at least two trials, a float
    or per-trial concentration scaling, and finite joint
    log-likelihoods. *)
Definition evaluable (self : Potential.BinomialGammaPotential) (theta : Tensor)
    (B T K C : nat) : Prop :=
  shape theta = [B; S K] /\ shape (Potential.x_o self) = [T; C] /\
  S K <= C /\ 1 <= K /\ 1 <= B /\ 1 <= T /\ (B = 1 \/ 2 <= T) /\
  Potential.per_trial_scaling self T /\
  forall b t, b < B -> t < T ->
    isfinite (Potential.spec_joint self theta K b t) = true.

End Values.

(** The trials of [x'] are the trials of [x] in the order given by
    [sigma]. *)
Definition reordered_trials (T C : nat) (sigma : nat -> nat) (x x' : Tensor)
  : Prop :=
  shape x = [T; C] /\ shape x' = [T; C] /\
  Permutation (map sigma (seq 0 T)) (seq 0 T) /\
  forall t c, t < T -> c < C -> get x' [t; c] = get x [sigma t; c].

(** The trials of [x12] are the [T1] trials of [x1] followed by the [T2]
    trials of [x2]. *)
Definition concatenated_trials (T1 T2 C : nat) (x1 x2 x12 : Tensor) : Prop :=
  shape x1 = [T1; C] /\ shape x2 = [T2; C] /\ shape x12 = [T1 + T2; C] /\
  (forall t c, t < T1 -> c < C -> get x12 [t; c] = get x1 [t; c]) /\
  (forall t c, t < T2 -> c < C -> get x12 [T1 + t; c] = get x2 [t; c]).

(** The potential with other observations. *)
Definition with_x_o (self : Potential.BinomialGammaPotential) (x : Tensor)
  : Potential.BinomialGammaPotential :=
  Potential.mkPotential (Potential.prior self) x
    (Potential.concentration_scaling self).

End PotentialSpec.

Module MoreExamples.
Import Examples.

(** A distribution whose log-density comes as a column, of shape
    [(batch_size, 1)]. *)
Definition column_box : Distribution :=
  {| log_prob := fun theta => Torch.zeros [hd 0 (shape theta); 1] |}.

(** Round index 1, with the column-shaped distribution as second history
    entry. *)
Definition trainer_column_history : NPE_B.NPE_B :=
  NPE_B.mkNPE_B unit_box 1 [unit_box; column_box] flat_net.

(** The column-shaped distribution as prior. *)
Definition trainer_column_prior : NPE_B.NPE_B :=
  NPE_B.mkNPE_B column_box 0 [unit_box] flat_net.

(** Round index 1 after two rounds of sampling from the prior. *)
Definition trainer_two_priors : NPE_B.NPE_B :=
  NPE_B.mkNPE_B unit_box 1 [unit_box; unit_box] flat_net.

(** A prior and a history entry whose log-densities are nan. *)
Definition trainer_all_broken : NPE_B.NPE_B :=
  NPE_B.mkNPE_B broken 0 [broken] flat_net.

(** A batch without samples. *)
Definition empty_batch : Tensor := constant_batch 0 1 0.

(** Two samples that hold a rate and nothing else. *)
Definition theta_rate_only : Tensor := Torch.full [2; 1] (Fin (1 / 2)).

(** A batch without samples of two parameters. *)
Definition theta_empty : Tensor := Torch.full [0; 2] (Fin (1 / 2)).

(** One sample of two parameters. *)
Definition theta_one_sample : Tensor := Torch.full [1; 2] (Fin (1 / 2)).


(** Four trials that lack the column of counts. *)
Definition potential_no_counts : Potential.BinomialGammaPotential :=
  Potential.mkPotential unit_box (Torch.full [4; 1] (Fin 1))
    (Potential.Float (Fin 1)).

(** No trial at all. *)
Definition potential_zero_trials : Potential.BinomialGammaPotential :=
  Potential.mkPotential unit_box (Torch.full [0; 2] (Fin 1))
    (Potential.Float (Fin 1)).

(** Two trials with different outcomes: trial [t] has the continuous
    outcome [t + 1] and the count [t]. *)
Definition x_ramp : Tensor :=
  {| shape := [2; 2];
     get := fun idx => match idx with
                       | [t; 0] => Fin (INR (S t))
                       | [t; _] => Fin (INR t)
                       | _ => NaN
                       end |}.

(** The same two trials in the other order. *)
Definition x_ramp_swapped : Tensor :=
  {| shape := [2; 2]; get := fun idx => get x_ramp (1 - hd 0 idx :: tl idx) |}.

(** The two trials followed by the two swapped ones. *)
Definition x_ramp_twice : Tensor :=
  {| shape := [4; 2];
     get := fun idx =>
              if hd 0 idx <? 2 then get x_ramp idx
              else get x_ramp_swapped (hd 0 idx - 2 :: tl idx) |}.

(** The two trials with a third column. *)
Definition x_ramp_wide : Tensor :=
  {| shape := [2; 3];
     get := fun idx => match idx with
                       | [_; 2] => Fin 7
                       | _ => get x_ramp idx
                       end |}.

Definition potential_ramp : Potential.BinomialGammaPotential :=
  Potential.mkPotential unit_box x_ramp (Potential.Float (Fin 1)).

(** One concentration per trial, for four trials. *)
Definition scaling_4 : Tensor := Torch.full [4] (Fin 1).

(** A batch of two samples, tracked or not. *)
Definition tracked_two_samples : Potential.Tracked :=
  Potential.mkTracked theta_two_samples true.

(** An estimator that keeps the leading sample axis of its input: for an
    input of shape [(1, batch_size, ...)] its log-probability has shape
    [(1, batch_size)]; here it is -1 for every sample. *)
Definition sample_axis_net : Estimator :=
  {| net_log_prob := fun input _ =>
       Torch.full (firstn 2 (shape input)) (Fin (-1)) |}.

(** Round index 1 with the prior as the only history entry, and the
    estimator that keeps the sample axis. *)
Definition trainer_sample_axis : NPE_B.NPE_B :=
  NPE_B.mkNPE_B unit_box 1 [unit_box] sample_axis_net.

(** Round index 1 after two rounds of sampling from the prior, with the
    estimator that keeps the sample axis. *)
Definition trainer_two_priors_sample_axis : NPE_B.NPE_B :=
  NPE_B.mkNPE_B unit_box 1 [unit_box; unit_box] sample_axis_net.

(** A prior and a history entry whose log-densities are nan, with the
    estimator that keeps the sample axis. *)
Definition trainer_all_broken_sample_axis : NPE_B.NPE_B :=
  NPE_B.mkNPE_B broken 0 [broken] sample_axis_net.

(** [atleast_2d] on batches that have two dimensions already. *)
#[local] Instance keep_2d : TorchUtils := {| atleast_2d := fun t => t |}.

End MoreExamples.

(** * Properties of the tensor operations *)

Section ScalarFacts.

(** The sign tests on the values the proofs meet. *)
Lemma sign_pos (x : R) : (0 < x)%R -> sign x = Gt.
Proof.
  intros Hx. unfold sign.
  destruct (total_order_T x 0) as [[Hlt | Heq] | Hgt]; try reflexivity; lra.
Qed.

Lemma sign_zero : sign 0 = Eq.
Proof.
  unfold sign.
  destruct (total_order_T 0 0) as [[Hlt | Heq] | Hgt]; try reflexivity; lra.
Qed.

(** Division by a positive number is the division of real numbers. *)
Lemma sdiv_pos (x y : R) : (0 < y)%R -> sdiv (Fin x) (Fin y) = Fin (x / y).
Proof. intros Hy. simpl. now rewrite (sign_pos _ Hy). Qed.

(** A positive number divided by zero is +inf. *)
Lemma sdiv_zero (x : R) : (0 < x)%R -> sdiv (Fin x) (Fin 0) = PInf.
Proof. intros Hx. simpl. now rewrite sign_zero, (sign_pos _ Hx). Qed.

(** A finite element is a real number. *)
Lemma isfinite_Fin (a : scalar) : isfinite a = true -> a = Fin (real_of a).
Proof. destruct a; simpl; intros Hf; try discriminate; reflexivity. Qed.

(** [round_index + 1] is positive. *)
Lemma INR_succ_pos (n : nat) : (0 < INR (n + 1))%R.
Proof. apply lt_0_INR. lia. Qed.

End ScalarFacts.

Section TensorFacts.

(** The indices of a shape are the lists that are below it in every
    dimension. *)
Lemma in_indices (s idx : list nat) :
  In idx (Torch.indices s) <-> Forall2 lt idx s.
Proof.
  revert idx. induction s as [| d s IH]; intros idx; simpl.
  - split.
    + intros [<- | []]. constructor.
    + intros Hf. inversion Hf. now left.
  - rewrite in_flat_map. split.
    + intros (i & Hi & Hin). apply in_map_iff in Hin as (idx' & <- & Hin').
      apply in_seq in Hi. constructor; [lia | now apply IH].
    + intros Hf. inversion Hf as [| i d' idx' s' Hlt Hrest]; subst.
      exists i. split; [apply in_seq; lia |].
      apply in_map. now apply IH.
Qed.

(** A tensor that passes [isfinite().all()] is finite at every index of its
    shape. *)
Lemma isfinite_all_get (t : Tensor) (idx : list nat) :
  Torch.isfinite_all t = true -> Forall2 lt idx (shape t) ->
  isfinite (get t idx) = true.
Proof.
  unfold Torch.isfinite_all. rewrite forallb_forall. intros Hall Hidx.
  apply Hall. now apply in_indices.
Qed.

(** The same for a tensor of rank 1, with the element as a real number. *)
Lemma isfinite_all_get1 (t : Tensor) (n b : nat) :
  Torch.isfinite_all t = true -> shape t = [n] -> b < n ->
  get t [b] = Fin (real_of (get t [b])).
Proof.
  intros Hall Hs Hb. apply isfinite_Fin, isfinite_all_get; [assumption |].
  rewrite Hs. repeat constructor. assumption.
Qed.

(** A tensor that fails the check has a non-finite element at an index of
    its shape. *)
Lemma isfinite_all_false (t : Tensor) :
  Torch.isfinite_all t = false ->
  exists idx, Forall2 lt idx (shape t) /\ isfinite (get t idx) = false.
Proof.
  unfold Torch.isfinite_all. intros Hf.
  destruct (existsb (fun idx => negb (isfinite (get t idx)))
                    (Torch.indices (shape t))) eqn:He.
  - apply existsb_exists in He as (idx & Hin & Hneg).
    exists idx. split; [now apply in_indices |].
    now apply negb_true_iff.
  - exfalso. assert (Ht : forallb (fun idx => isfinite (get t idx))
                                  (Torch.indices (shape t)) = true).
    { apply forallb_forall. intros idx Hin.
      destruct (isfinite (get t idx)) eqn:Hi; [reflexivity |].
      assert (Hex : existsb (fun idx => negb (isfinite (get t idx)))
                            (Torch.indices (shape t)) = true).
      { apply existsb_exists. exists idx. split; [assumption |].
        now rewrite Hi. }
      congruence. }
    congruence.
Qed.

(** Two shapes [(n,)] broadcast to [(n,)], index by index. *)
Lemma broadcast_shapes_same1 (n : nat) :
  Torch.broadcast_shapes [n] [n] = Some [n].
Proof. unfold Torch.broadcast_shapes. simpl. now rewrite Nat.eqb_refl. Qed.

Lemma bindex_same1 (n b : nat) : b < n -> Torch.bindex [n] [b] = [b].
Proof.
  intros Hb. unfold Torch.bindex. simpl.
  destruct (n =? 1) eqn:Hn; [| reflexivity].
  apply Nat.eqb_eq in Hn. f_equal. lia.
Qed.

(** Two tensors of one shape [(n,)] combine elementwise. *)
Lemma broadcast2_same1 (f : scalar -> scalar -> scalar) (t1 t2 : Tensor)
    (n : nat) :
  shape t1 = [n] -> shape t2 = [n] ->
  exists out, Torch.broadcast2 f t1 t2 = Ok out /\ shape out = [n] /\
    forall b, b < n -> get out [b] = f (get t1 [b]) (get t2 [b]).
Proof.
  intros H1 H2. unfold Torch.broadcast2.
  rewrite H1, H2, broadcast_shapes_same1.
  eexists. split; [reflexivity |]. split; [reflexivity |].
  intros b Hb. simpl. now rewrite (bindex_same1 _ _ Hb).
Qed.

(** The in-place addition of two tensors of one shape [(n,)]. *)
Lemma iadd_same1 (a b : Tensor) (n : nat) :
  shape a = [n] -> shape b = [n] ->
  exists out, Torch.iadd a b = Ok out /\ shape out = [n] /\
    forall i, i < n -> get out [i] = sadd (get a [i]) (get b [i]).
Proof.
  intros Ha Hb. unfold Torch.iadd.
  rewrite Ha, Hb, broadcast_shapes_same1.
  destruct (list_eq_dec Nat.eq_dec [n] [n]) as [_ | Hne]; [| congruence].
  eexists. split; [reflexivity |]. split; [reflexivity |].
  intros i Hi. simpl. now rewrite (bindex_same1 _ _ Hi).
Qed.

End TensorFacts.

(** * Properties of [_log_prob_proposal_posterior] *)

Module NPE_B_Facts.
Import NPE_B.

Local Open Scope npe_scope.

Create HintDb npe.
#[local] Hint Unfold bind ret lift call assert_all_finite : npe.

(** A finite history, entry by entry. *)
Lemma finite_history_inv (density : Distribution) (rest : list Distribution)
    (theta : Tensor) (n : nat) :
  finite_history (density :: rest) theta n ->
  shape (log_prob density theta) = [n] /\
  Torch.isfinite_all (log_prob density theta) = true /\
  finite_history rest theta n.
Proof.
  unfold finite_history. intros Hf. inversion Hf as [| d l [Hs Hfin] Hrest]; subst.
  auto.
Qed.

(** The loop over a finite history returns the accumulator plus the scaled
    densities, sample by sample. *)
Lemma accumulate_finite (p : scalar) (theta : Tensor) (n : nat)
    (densities : list Distribution) :
  finite_history densities theta n ->
  forall (i : nat) (proposal : Tensor) (tr : list event),
    shape proposal = [n] ->
    exists out,
      accumulate p theta densities i proposal tr
        = (Ok out, tr ++ loop_events i (length densities)) /\
      shape out = [n] /\
      forall b, b < n ->
        get out [b]
        = fold_left sadd
            (map (fun density => smul p (sexp (get (log_prob density theta) [b])))
                 densities)
            (get proposal [b]).
Proof.
  induction densities as [| density rest IH]; intros Hfin i proposal tr Hshape.
  - exists proposal. simpl. unfold ret. rewrite app_nil_r. auto.
  - apply finite_history_inv in Hfin as (Hs & Hall & Hrest).
    destruct (iadd_same1 proposal
                (Torch.scale p (Torch.exp (log_prob density theta))) n)
      as (acc & Hacc & Hacc_shape & Hacc_get); [assumption | exact Hs |].
    destruct (IH Hrest (S i) acc
                ((tr ++ [ProposalLogProb i]) ++ [ProposalLogProb i]) Hacc_shape)
      as (out & Hrun & Hout_shape & Hout_get).
    exists out. split; [| split; [assumption |]].
    + simpl. autounfold with npe. rewrite Hall. simpl. rewrite Hacc.
      rewrite Hrun. f_equal. rewrite <- !app_assoc. reflexivity.
    + intros b Hb. rewrite (Hout_get b Hb), (Hacc_get b Hb). reflexivity.
Qed.

(** The value of the accumulated sum in real numbers. *)
Lemma fold_mixture_real (p : R) (theta : Tensor) (n b : nat)
    (densities : list Distribution) :
  finite_history densities theta n -> b < n ->
  forall a : R,
    fold_left sadd
      (map (fun density => smul (Fin p) (sexp (get (log_prob density theta) [b])))
           densities)
      (Fin a)
    = Fin (a + p * density_sum densities theta b).
Proof.
  intros Hfin Hb. induction densities as [| density rest IH]; intros a.
  - simpl. unfold density_sum. simpl. f_equal. lra.
  - apply finite_history_inv in Hfin as (Hs & Hall & Hrest).
    pose proof (isfinite_all_get1 _ _ _ Hall Hs Hb) as Hlp.
    unfold density_sum in *. simpl.
    destruct (get (log_prob density theta) [b]) as [r | | |]; try discriminate.
    simpl. rewrite (IH Hrest). f_equal. lra.
Qed.

(** The order of the history changes neither the sum of the densities nor
    their finiteness. *)
Lemma density_sum_perm (h h' : list Distribution) (theta : Tensor) (b : nat) :
  Permutation h h' -> density_sum h theta b = density_sum h' theta b.
Proof.
  unfold density_sum. induction 1; simpl; lra.
Qed.

Lemma finite_history_perm (h h' : list Distribution) (theta : Tensor) (n : nat) :
  Permutation h h' -> finite_history h theta n -> finite_history h' theta n.
Proof. unfold finite_history. intros Hp. now apply Permutation_Forall. Qed.

(** The mixture proposal density of a finite history. *)
Lemma mixture_proposal_finite (self : NPE_B) (theta : Tensor) (n : nat)
    (tr : list event) :
  Torch.size0 theta = Ok n ->
  finite_history (_proposal_roundwise self) theta n ->
  exists out,
    mixture_proposal self theta tr
      = (Ok out, tr ++ loop_events 0 (length (_proposal_roundwise self))) /\
    shape out = [n] /\
    forall b, b < n -> get out [b] = spec_mixture_density self theta b.
Proof.
  intros Hsize Hfin.
  destruct (accumulate_finite (prop self) theta n _ Hfin 0 (Torch.zeros [n]) tr eq_refl)
    as (out & Hrun & Hshape & Hget).
  exists out. split; [| split; [assumption |]].
  - unfold mixture_proposal. autounfold with npe. rewrite Hsize. exact Hrun.
  - intros b Hb. rewrite (Hget b Hb). reflexivity.
Qed.

(** The importance weights of finite inputs. *)
Lemma importance_weights_finite (self : NPE_B) (theta : Tensor) (n : nat)
    (tr : list event) :
  Torch.size0 theta = Ok n ->
  shape (log_prob (_prior self) theta) = [n] ->
  Torch.isfinite_all (log_prob (_prior self) theta) = true ->
  finite_history (_proposal_roundwise self) theta n ->
  exists out,
    importance_weights self theta tr
      = (Ok out, tr ++ [PriorLogProb; PriorLogProb]
                    ++ loop_events 0 (length (_proposal_roundwise self))) /\
    shape out = [n] /\
    forall b, b < n ->
      get out [b] = sdiv (sexp (get (log_prob (_prior self) theta) [b]))
                         (spec_mixture_density self theta b).
Proof.
  intros Hsize Hshape Hall Hfin.
  destruct (mixture_proposal_finite self theta n
              ((tr ++ [PriorLogProb]) ++ [PriorLogProb]) Hsize Hfin)
    as (mix & Hmix & Hmix_shape & Hmix_get).
  destruct (broadcast2_same1 sdiv
              (Torch.exp (log_prob (_prior self) theta)) mix n)
    as (out & Hdiv & Hout_shape & Hout_get); [exact Hshape | assumption |].
  exists out. split; [| split; [assumption |]].
  - unfold importance_weights. autounfold with npe. rewrite Hall. simpl.
    rewrite Hmix. unfold Torch.div. rewrite Hdiv. f_equal.
    rewrite <- !app_assoc. reflexivity.
  - intros b Hb. rewrite (Hout_get b Hb), (Hmix_get b Hb). reflexivity.
Qed.

(** The mixture proposal density of a finite history as a real number. *)
Lemma spec_mixture_density_real (self : NPE_B) (theta : Tensor) (n b : nat) :
  finite_history (_proposal_roundwise self) theta n -> b < n ->
  spec_mixture_density self theta b
  = Fin (density_sum (_proposal_roundwise self) theta b / INR (_round self + 1)).
Proof.
  intros Hfin Hb. unfold spec_mixture_density, ssum.
  rewrite (fold_mixture_real _ theta n b _ Hfin Hb). f_equal.
  pose proof (INR_succ_pos (_round self)). field. lra.
Qed.

(** The sum of the exponentiated log-densities of a finite history as a real
    number. *)
Lemma fold_exp_real (theta : Tensor) (n b : nat) (densities : list Distribution) :
  finite_history densities theta n -> b < n ->
  forall a : R,
    fold_left sadd
      (map (fun density => sexp (get (log_prob density theta) [b])) densities)
      (Fin a)
    = Fin (a + density_sum densities theta b).
Proof.
  intros Hfin Hb. induction densities as [| density rest IH]; intros a.
  - simpl. unfold density_sum. simpl. f_equal. lra.
  - apply finite_history_inv in Hfin as (Hs & Hall & Hrest).
    pose proof (isfinite_all_get1 _ _ _ Hall Hs Hb) as Hlp.
    unfold density_sum in *. simpl.
    destruct (get (log_prob density theta) [b]) as [r | | |]; try discriminate.
    simpl. rewrite (IH Hrest). f_equal. lra.
Qed.

(** The unweighted average is the density sum over the length of the
    history. *)
Lemma spec_unweighted_average_real (self : NPE_B) (theta : Tensor) (n b : nat) :
  finite_history (_proposal_roundwise self) theta n -> b < n ->
  0 < length (_proposal_roundwise self) ->
  spec_unweighted_average self theta b
  = Fin (density_sum (_proposal_roundwise self) theta b
         / INR (length (_proposal_roundwise self))).
Proof.
  intros Hfin Hb Hlen. unfold spec_unweighted_average, ssum.
  rewrite (fold_exp_real theta n b _ Hfin Hb). rewrite sdiv_pos.
  - f_equal. lra.
  - now apply lt_0_INR.
Qed.

(** The density of the unit box is 1 at every sample of the example
    batch. *)
Lemma unit_box_density_sum (b : nat) :
  density_sum [Examples.unit_box] Examples.theta2 b = 1%R.
Proof. unfold density_sum. simpl. rewrite exp_0. lra. Qed.

(** C4, as the code has it: the mixture proposal density of a finite
    history is the sum of the exponentiated log-densities of its entries
    divided by [round_index + 1], whatever the length of the history; it is
    their unweighted average when the history has [round_index + 1]
    entries; and it does not depend on the order of the entries. *)
Theorem mixture_proposal_value (self : NPE_B) (theta : Tensor) (n : nat)
    (tr : list event) :
  Torch.size0 theta = Ok n ->
  finite_history (_proposal_roundwise self) theta n ->
  exists out tr',
    mixture_proposal self theta tr = (Ok out, tr') /\
    shape out = [n] /\
    (forall b, b < n ->
       get out [b]
       = Fin (density_sum (_proposal_roundwise self) theta b
              / INR (_round self + 1))) /\
    (length (_proposal_roundwise self) = _round self + 1 ->
     forall b, b < n -> get out [b] = spec_unweighted_average self theta b) /\
    (forall history, Permutation (_proposal_roundwise self) history ->
     exists out' tr'',
       mixture_proposal (with_history self history) theta tr = (Ok out', tr'') /\
       forall b, b < n -> get out' [b] = get out [b]).
Proof.
  intros Hsize Hfin.
  destruct (mixture_proposal_finite self theta n tr Hsize Hfin)
    as (out & Hrun & Hshape & Hget).
  assert (Hreal : forall b, b < n ->
            get out [b]
            = Fin (density_sum (_proposal_roundwise self) theta b
                   / INR (_round self + 1))).
  { intros b Hb. rewrite (Hget b Hb).
    apply (spec_mixture_density_real self theta n b Hfin Hb). }
  exists out. eexists. split; [exact Hrun |]. split; [assumption |].
  split; [assumption |]. split.
  - intros Hlen b Hb. rewrite (Hreal b Hb).
    rewrite (spec_unweighted_average_real self theta n b Hfin Hb) by lia.
    now rewrite Hlen.
  - intros history Hperm.
    pose proof (finite_history_perm _ _ theta n Hperm Hfin) as Hfin'.
    destruct (mixture_proposal_finite (with_history self history) theta n tr
                Hsize Hfin') as (out' & Hrun' & _ & Hget').
    exists out'. eexists. split; [exact Hrun' |].
    intros b Hb. rewrite (Hget' b Hb), (Hreal b Hb).
    rewrite (spec_mixture_density_real (with_history self history) theta n b
               Hfin' Hb).
    simpl. now rewrite (density_sum_perm _ _ theta b Hperm).
Qed.

Lemma mixture_proposal_value_witness :
  exists out tr',
    mixture_proposal Examples.trainer_single Examples.theta2 [] = (Ok out, tr') /\
    shape out = [2] /\
    (forall b, b < 2 ->
       get out [b]
       = Fin (density_sum [Examples.unit_box] Examples.theta2 b / INR (0 + 1))) /\
    (length [Examples.unit_box] = 0 + 1 ->
     forall b, b < 2 ->
       get out [b] = spec_unweighted_average Examples.trainer_single Examples.theta2 b) /\
    (forall history, Permutation [Examples.unit_box] history ->
     exists out' tr'',
       mixture_proposal (with_history Examples.trainer_single history)
         Examples.theta2 [] = (Ok out', tr'') /\
       forall b, b < 2 -> get out' [b] = get out [b]).
Proof.
  apply (mixture_proposal_value Examples.trainer_single Examples.theta2 2 []).
  - reflexivity.
  - repeat constructor.
Defined.

(** C4 fails as stated: with round index 1 and a history of length 1 the
    mixture proposal density is half the density of the entry, not the
    average over the history, which is the density of the entry. *)
Lemma mixture_proposal_not_average :
  exists out tr',
    mixture_proposal Examples.trainer_round1 Examples.theta2 [] = (Ok out, tr') /\
    get out [0] = Fin (1 / 2) /\
    spec_unweighted_average Examples.trainer_round1 Examples.theta2 0 = Fin 1 /\
    get out [0] <> spec_unweighted_average Examples.trainer_round1 Examples.theta2 0.
Proof.
  assert (Hfin : finite_history [Examples.unit_box] Examples.theta2 2)
    by (repeat constructor).
  destruct (mixture_proposal_finite Examples.trainer_round1 Examples.theta2 2 []
              eq_refl Hfin) as (out & Hrun & _ & Hget).
  assert (Hout : get out [0] = Fin (1 / 2)).
  { rewrite (Hget 0) by lia.
    rewrite (spec_mixture_density_real Examples.trainer_round1 Examples.theta2
               2 0 Hfin) by lia.
    simpl _proposal_roundwise. rewrite unit_box_density_sum.
    apply (f_equal Fin). simpl. lra. }
  assert (Havg : spec_unweighted_average Examples.trainer_round1 Examples.theta2 0
                 = Fin 1).
  { rewrite (spec_unweighted_average_real Examples.trainer_round1
               Examples.theta2 2 0 Hfin) by (simpl; lia).
    simpl _proposal_roundwise. rewrite unit_box_density_sum.
    apply (f_equal Fin). simpl. lra. }
  exists out. eexists. split; [exact Hrun |]. split; [assumption |].
  split; [assumption |].
  rewrite Hout, Havg. intros Heq. injection Heq. lra.
Qed.

(** C2, as the code has it: with an empty proposal history the mixture
    denominator is the tensor of zeros [torch.zeros] created, no special
    case is taken, and the importance weight of every sample is its prior
    density divided by zero, which is +inf. *)
Theorem empty_history_weight (self : NPE_B) (theta : Tensor) (n : nat)
    (tr : list event) :
  _proposal_roundwise self = [] ->
  Torch.size0 theta = Ok n ->
  shape (log_prob (_prior self) theta) = [n] ->
  Torch.isfinite_all (log_prob (_prior self) theta) = true ->
  mixture_proposal self theta tr = (Ok (Torch.zeros [n]), tr) /\
  exists out tr',
    importance_weights self theta tr = (Ok out, tr') /\
    shape out = [n] /\
    forall b, b < n ->
      get out [b] = sdiv (sexp (get (log_prob (_prior self) theta) [b])) (Fin 0) /\
      get out [b] = PInf.
Proof.
  intros Hempty Hsize Hshape Hall. split.
  - unfold mixture_proposal. autounfold with npe. rewrite Hsize, Hempty.
    reflexivity.
  - assert (Hfin : finite_history (_proposal_roundwise self) theta n)
      by (rewrite Hempty; constructor).
    destruct (importance_weights_finite self theta n tr Hsize Hshape Hall Hfin)
      as (out & Hrun & Hout_shape & Hget).
    exists out. eexists. split; [exact Hrun |]. split; [assumption |].
    intros b Hb. rewrite (Hget b Hb). unfold spec_mixture_density.
    rewrite Hempty. simpl map. unfold ssum. simpl fold_left.
    split; [reflexivity |].
    rewrite (isfinite_all_get1 _ _ _ Hall Hshape Hb). simpl sexp.
    apply sdiv_zero, exp_pos.
Qed.

Lemma empty_history_weight_witness :
  mixture_proposal Examples.trainer_round0 Examples.theta2 []
    = (Ok (Torch.zeros [2]), []) /\
  exists out tr',
    importance_weights Examples.trainer_round0 Examples.theta2 [] = (Ok out, tr') /\
    shape out = [2] /\
    forall b, b < 2 ->
      get out [b]
      = sdiv (sexp (get (log_prob Examples.unit_box Examples.theta2) [b])) (Fin 0) /\
      get out [b] = PInf.
Proof.
  apply (empty_history_weight Examples.trainer_round0 Examples.theta2 2 []).
  - reflexivity.
  - reflexivity.
  - reflexivity.
  - reflexivity.
Defined.

(** C2 fails as stated: in round 0 with an empty history the importance
    weight of the first sample is +inf, not 1. *)
Lemma empty_history_weight_not_one :
  _round Examples.trainer_round0 = 0 /\
  _proposal_roundwise Examples.trainer_round0 = [] /\
  exists out tr',
    importance_weights Examples.trainer_round0 Examples.theta2 [] = (Ok out, tr') /\
    get out [0] = PInf /\
    get out [0] <> Fin 1.
Proof.
  split; [reflexivity |]. split; [reflexivity |].
  assert (Hfin : finite_history [] Examples.theta2 2) by constructor.
  destruct (importance_weights_finite Examples.trainer_round0 Examples.theta2 2 []
              eq_refl eq_refl eq_refl Hfin) as (out & Hrun & _ & Hget).
  assert (Hout : get out [0] = PInf).
  { rewrite (Hget 0) by lia. simpl. unfold spec_mixture_density, ssum. simpl.
    rewrite sign_zero. now rewrite (sign_pos _ (exp_pos 0)). }
  exists out. eexists. split; [exact Hrun |]. split; [assumption |].
  rewrite Hout. discriminate.
Qed.

(** The weight when the history is the prior alone. *)
Lemma single_proposal_weight_real (self : NPE_B) (theta : Tensor) (n : nat)
    (tr : list event) (density : Distribution) :
  _proposal_roundwise self = [density] ->
  log_prob density theta = log_prob (_prior self) theta ->
  Torch.size0 theta = Ok n ->
  shape (log_prob (_prior self) theta) = [n] ->
  Torch.isfinite_all (log_prob (_prior self) theta) = true ->
  exists out tr',
    importance_weights self theta tr = (Ok out, tr') /\
    shape out = [n] /\
    forall b, b < n -> get out [b] = Fin (INR (_round self + 1)).
Proof.
  intros Hsingle Hsame Hsize Hshape Hall.
  assert (Hfin : finite_history (_proposal_roundwise self) theta n).
  { rewrite Hsingle. constructor; [| constructor]. rewrite Hsame. auto. }
  destruct (importance_weights_finite self theta n tr Hsize Hshape Hall Hfin)
    as (out & Hrun & Hout_shape & Hget).
  exists out. eexists. split; [exact Hrun |]. split; [assumption |].
  intros b Hb. rewrite (Hget b Hb).
  rewrite (spec_mixture_density_real self theta n b Hfin Hb).
  rewrite Hsingle. unfold density_sum. simpl map. simpl fold_right.
  rewrite Hsame. rewrite (isfinite_all_get1 _ _ _ Hall Hshape Hb) at 1.
  simpl sexp.
  set (e := Rtrigo_def.exp (real_of (get (log_prob (_prior self) theta) [b]))).
  assert (He : (0 < e)%R) by apply exp_pos.
  pose proof (INR_succ_pos (_round self)) as Hr.
  rewrite sdiv_pos.
  - apply (f_equal Fin). field. split; lra.
  - apply Rdiv_lt_0_compat; lra.
Qed.

(** C5, as the code has it: when the proposal history is a single
    distribution whose log-density is the prior's, the importance weight of
    every sample is [round_index + 1]; it is 1 when the round index is 0. *)
Theorem single_proposal_weight (self : NPE_B) (theta : Tensor) (n : nat)
    (tr : list event) (density : Distribution) :
  _proposal_roundwise self = [density] ->
  (forall t, log_prob density t = log_prob (_prior self) t) ->
  Torch.size0 theta = Ok n ->
  shape (log_prob (_prior self) theta) = [n] ->
  Torch.isfinite_all (log_prob (_prior self) theta) = true ->
  exists out tr',
    importance_weights self theta tr = (Ok out, tr') /\
    shape out = [n] /\
    forall b, b < n ->
      get out [b] = Fin (INR (_round self + 1)) /\
      (_round self = 0 -> get out [b] = Fin 1).
Proof.
  intros Hsingle Hsame Hsize Hshape Hall.
  destruct (single_proposal_weight_real self theta n tr density Hsingle
              (Hsame theta) Hsize Hshape Hall) as (out & tr' & Hrun & Hs & Hget).
  exists out, tr'. split; [exact Hrun |]. split; [assumption |].
  intros b Hb. split; [now apply Hget |].
  intros Hround. rewrite (Hget b Hb), Hround. reflexivity.
Qed.

Lemma single_proposal_weight_witness :
  exists out tr',
    importance_weights Examples.trainer_single Examples.theta2 [] = (Ok out, tr') /\
    shape out = [2] /\
    forall b, b < 2 ->
      get out [b] = Fin (INR (0 + 1)) /\
      (0 = 0 -> get out [b] = Fin 1).
Proof.
  apply (single_proposal_weight Examples.trainer_single Examples.theta2 2 []
           Examples.unit_box).
  - reflexivity.
  - reflexivity.
  - reflexivity.
  - reflexivity.
  - reflexivity.
Defined.

(** C5 fails as stated: with round index 1 and a history that holds the
    prior alone, the importance weight of the first sample is 2, not 1. *)
Lemma single_proposal_weight_not_one :
  _proposal_roundwise Examples.trainer_round1 = [_prior Examples.trainer_round1] /\
  exists out tr',
    importance_weights Examples.trainer_round1 Examples.theta2 [] = (Ok out, tr') /\
    get out [0] = Fin 2 /\
    get out [0] <> Fin 1.
Proof.
  split; [reflexivity |].
  destruct (single_proposal_weight_real Examples.trainer_round1 Examples.theta2
              2 [] Examples.unit_box eq_refl eq_refl eq_refl eq_refl eq_refl)
    as (out & tr' & Hrun & _ & Hget).
  assert (Hout : get out [0] = Fin 2).
  { rewrite (Hget 0) by lia. apply (f_equal Fin). simpl. lra. }
  exists out, tr'. split; [exact Hrun |]. split; [assumption |].
  rewrite Hout. intros Heq. injection Heq. lra.
Qed.

(** The loop raises at the first entry whose log-density is not finite; the
    last call recorded is the evaluation of that entry. *)
Lemma accumulate_raises (p : scalar) (theta : Tensor) (n : nat)
    (densities : list Distribution) :
  Forall (fun density => shape (log_prob density theta) = [n]) densities ->
  Exists (fun density => Torch.isfinite_all (log_prob density theta) = false)
         densities ->
  forall (i : nat) (proposal : Tensor) (tr : list event),
    shape proposal = [n] ->
    exists k density,
      nth_error densities k = Some density /\
      Torch.isfinite_all (log_prob density theta) = false /\
      accumulate p theta densities i proposal tr
      = (Raise (numerical_error "proposal eval"),
         tr ++ loop_events i k ++ [ProposalLogProb (i + k)]).
Proof.
  induction densities as [| density rest IH]; intros Hshapes Hex i proposal tr Hp.
  - inversion Hex.
  - inversion Hshapes as [| d l Hs Hrest]; subst.
    destruct (Torch.isfinite_all (log_prob density theta)) eqn:Hall.
    + assert (Hex' : Exists (fun density =>
                         Torch.isfinite_all (log_prob density theta) = false) rest).
      { inversion Hex as [d l Hbad | d l Hlater]; subst; [congruence | assumption]. }
      destruct (iadd_same1 proposal
                  (Torch.scale p (Torch.exp (log_prob density theta))) n Hp Hs)
        as (acc & Hacc & Hacc_shape & _).
      destruct (IH Hrest Hex' (S i) acc
                  ((tr ++ [ProposalLogProb i]) ++ [ProposalLogProb i]) Hacc_shape)
        as (k & bad & Hnth & Hbad & Hrun).
      exists (S k), bad. split; [exact Hnth |]. split; [assumption |].
      simpl. autounfold with npe. rewrite Hall. simpl. rewrite Hacc, Hrun.
      f_equal. rewrite <- !app_assoc. simpl.
      now replace (i + S k) with (S (i + k)) by lia.
    + exists 0, density. split; [reflexivity |]. split; [assumption |].
      simpl. autounfold with npe. rewrite Hall. simpl.
      now rewrite Nat.add_0_r.
Qed.

(** C3: when the log-density of the prior or of an entry of the proposal
    history is not finite at [theta], the function raises the numerical
    error, whose message names the evaluation that failed (prior or
    proposal), and returns no tensor.  The record of calls ends with the
    evaluation that failed: after a non-finite prior nothing else has been
    evaluated, after a non-finite proposal neither the later history
    entries nor the density estimator have been. *)
Theorem nonfinite_log_density_raises
    (self : NPE_B) (theta x masks : Tensor) (proposal : option Distribution)
    (n : nat) (tr : list event) :
  Torch.size0 theta = Ok n ->
  Forall (fun density => shape (log_prob density theta) = [n])
         (_proposal_roundwise self) ->
  Torch.isfinite_all (log_prob (_prior self) theta) = false \/
  Exists (fun density => Torch.isfinite_all (log_prob density theta) = false)
         (_proposal_roundwise self) ->
  exists description tr',
    _log_prob_proposal_posterior self theta x masks proposal tr
      = (Raise (numerical_error description), tr') /\
    ((description = "prior eval"%string /\
      Torch.isfinite_all (log_prob (_prior self) theta) = false /\
      tr' = tr ++ [PriorLogProb]) \/
     (description = "proposal eval"%string /\
      Torch.isfinite_all (log_prob (_prior self) theta) = true /\
      exists k density,
        nth_error (_proposal_roundwise self) k = Some density /\
        Torch.isfinite_all (log_prob density theta) = false /\
        tr' = tr ++ [PriorLogProb; PriorLogProb]
                 ++ loop_events 0 k ++ [ProposalLogProb k])).
Proof.
  intros Hsize Hshapes Hbad.
  destruct (Torch.isfinite_all (log_prob (_prior self) theta)) eqn:Hprior.
  - destruct Hbad as [Hbad | Hbad]; [discriminate |].
    destruct (accumulate_raises (prop self) theta n _ Hshapes Hbad 0
                (Torch.zeros [n]) ((tr ++ [PriorLogProb]) ++ [PriorLogProb])
                eq_refl) as (k & density & Hnth & Hnonfinite & Hrun).
    exists "proposal eval"%string. eexists. split.
    + unfold _log_prob_proposal_posterior, importance_weights, mixture_proposal.
      autounfold with npe. rewrite Hprior. simpl. rewrite Hsize, Hrun.
      reflexivity.
    + right. split; [reflexivity |]. split; [reflexivity |].
      exists k, density. split; [assumption |]. split; [assumption |].
      rewrite <- !app_assoc. reflexivity.
  - exists "prior eval"%string. eexists. split.
    + unfold _log_prob_proposal_posterior, importance_weights.
      autounfold with npe. rewrite Hprior. reflexivity.
    + left. auto.
Qed.

Lemma nonfinite_log_density_raises_witness :
  exists description tr',
    _log_prob_proposal_posterior Examples.trainer_broken Examples.theta2
      Examples.x2 Examples.x2 None []
      = (Raise (numerical_error description), tr') /\
    ((description = "prior eval"%string /\
      Torch.isfinite_all (log_prob Examples.unit_box Examples.theta2) = false /\
      tr' = [] ++ [PriorLogProb]) \/
     (description = "proposal eval"%string /\
      Torch.isfinite_all (log_prob Examples.unit_box Examples.theta2) = true /\
      exists k density,
        nth_error [Examples.unit_box; Examples.broken] k = Some density /\
        Torch.isfinite_all (log_prob density Examples.theta2) = false /\
        tr' = [] ++ [PriorLogProb; PriorLogProb]
                 ++ loop_events 0 k ++ [ProposalLogProb k])).
Proof.
  apply (nonfinite_log_density_raises Examples.trainer_broken Examples.theta2
           Examples.x2 Examples.x2 None 2 []).
  - reflexivity.
  - repeat constructor.
  - right. apply Exists_cons_tl, Exists_cons_hd. reflexivity.
Defined.

(** Line 101: once the importance weights are there, the estimator is
    evaluated and the result is the product of the weights and its output,
    with broadcasting. *)
Lemma posterior_after_weights
    (self : NPE_B) (theta x masks : Tensor) (proposal : option Distribution)
    (tr tr1 : list event) (weights : Tensor) :
  importance_weights self theta tr = (Ok weights, tr1) ->
  _log_prob_proposal_posterior self theta x masks proposal tr
  = (Torch.mul weights
       (net_log_prob (_neural_net self) (Torch.unsqueeze0 theta) x),
     tr1 ++ [NetLogProb]).
Proof.
  intros Hw. unfold _log_prob_proposal_posterior. autounfold with npe.
  now rewrite Hw.
Qed.

(** The product of a vector of [n] weights and a tensor of shape
    [(1, n)]: the weights are aligned with the last axis. *)
Lemma mul_sample_axis (w nn : Tensor) (n : nat) :
  shape w = [n] -> shape nn = [1; n] ->
  exists out,
    Torch.mul w nn = Ok out /\ shape out = [1; n] /\
    forall b, b < n -> get out [0; b] = smul (get w [b]) (get nn [0; b]).
Proof.
  intros Hw Hnn.
  assert (Hb : Torch.broadcast_shapes [n] [1; n] = Some [1; n]).
  { unfold Torch.broadcast_shapes. simpl. now rewrite Nat.eqb_refl. }
  eexists. split; [| split].
  - unfold Torch.mul, Torch.broadcast2. rewrite Hw, Hnn, Hb. reflexivity.
  - reflexivity.
  - intros b Hlt. cbn [get]. unfold Torch.bindex. simpl.
    destruct (n =? 1) eqn:E; [| reflexivity].
    apply Nat.eqb_eq in E. assert (b = 0) by lia. subst b. reflexivity.
Qed.

(** C1, as the code has it: for finite prior and proposal log-densities of
    shape [(batch_size,)] the importance weights are a tensor of shape
    [(batch_size,)] whose element [b] is the prior density divided by the
    mixture proposal density, the sum over the proposal history of
    [1/(round_index + 1)] times the exponentiated log-density; the function
    returns their product, with broadcasting, with the estimator's
    log-probability, and reduces nothing.  The result has shape
    [(batch_size,)] when the estimator returns a vector, and shape
    [(1, batch_size)] when the estimator keeps the sample axis of
    [theta.unsqueeze(0)]; either way it holds one value per sample, the
    weight times the log-probability. *)
Theorem log_prob_proposal_posterior_weighted
    (self : NPE_B) (theta x masks : Tensor) (proposal : option Distribution)
    (batch_size : nat) (tr : list event) :
  Torch.size0 theta = Ok batch_size ->
  shape (log_prob (_prior self) theta) = [batch_size] ->
  Torch.isfinite_all (log_prob (_prior self) theta) = true ->
  finite_history (_proposal_roundwise self) theta batch_size ->
  let nn := net_log_prob (_neural_net self) (Torch.unsqueeze0 theta) x in
  exists weights tr',
    shape weights = [batch_size] /\
    (forall b, b < batch_size ->
       get weights [b] = sdiv (sexp (get (log_prob (_prior self) theta) [b]))
                              (spec_mixture_density self theta b)) /\
    _log_prob_proposal_posterior self theta x masks proposal tr
    = (Torch.mul weights nn, tr') /\
    (shape nn = [batch_size] ->
     exists out,
       Torch.mul weights nn = Ok out /\ shape out = [batch_size] /\
       forall b, b < batch_size ->
         get out [b]
         = smul (sdiv (sexp (get (log_prob (_prior self) theta) [b]))
                      (spec_mixture_density self theta b))
                (get nn [b])) /\
    (shape nn = [1; batch_size] ->
     exists out,
       Torch.mul weights nn = Ok out /\ shape out = [1; batch_size] /\
       forall b, b < batch_size ->
         get out [0; b]
         = smul (sdiv (sexp (get (log_prob (_prior self) theta) [b]))
                      (spec_mixture_density self theta b))
                (get nn [0; b])).
Proof.
  intros Hsize Hshape Hall Hfin nn.
  destruct (importance_weights_finite self theta batch_size tr Hsize Hshape Hall Hfin)
    as (w & Hw & Hw_shape & Hw_get).
  exists w. eexists. split; [assumption |]. split; [exact Hw_get |].
  split; [exact (posterior_after_weights self theta x masks proposal tr _ w Hw) |].
  split; intros Hnn.
  - destruct (broadcast2_same1 smul w nn batch_size Hw_shape Hnn)
      as (out & Hmul & Hout_shape & Hout_get).
    exists out. split; [exact Hmul |]. split; [assumption |].
    intros b Hb. now rewrite (Hout_get b Hb), (Hw_get b Hb).
  - destruct (mul_sample_axis w nn batch_size Hw_shape Hnn)
      as (out & Hmul & Hout_shape & Hout_get).
    exists out. split; [exact Hmul |]. split; [assumption |].
    intros b Hb. now rewrite (Hout_get b Hb), (Hw_get b Hb).
Qed.

Lemma log_prob_proposal_posterior_weighted_witness :
  let nn := net_log_prob MoreExamples.sample_axis_net
              (Torch.unsqueeze0 Examples.theta2) Examples.x2 in
  exists weights tr',
    shape weights = [2] /\
    (forall b, b < 2 ->
       get weights [b]
       = sdiv (sexp (get (log_prob Examples.unit_box Examples.theta2) [b]))
              (spec_mixture_density MoreExamples.trainer_sample_axis
                 Examples.theta2 b)) /\
    _log_prob_proposal_posterior MoreExamples.trainer_sample_axis
      Examples.theta2 Examples.x2 Examples.x2 None []
    = (Torch.mul weights nn, tr') /\
    (shape nn = [2] ->
     exists out,
       Torch.mul weights nn = Ok out /\ shape out = [2] /\
       forall b, b < 2 ->
         get out [b]
         = smul (sdiv (sexp (get (log_prob Examples.unit_box Examples.theta2) [b]))
                      (spec_mixture_density MoreExamples.trainer_sample_axis
                         Examples.theta2 b))
                (get nn [b])) /\
    (shape nn = [1; 2] ->
     exists out,
       Torch.mul weights nn = Ok out /\ shape out = [1; 2] /\
       forall b, b < 2 ->
         get out [0; b]
         = smul (sdiv (sexp (get (log_prob Examples.unit_box Examples.theta2) [b]))
                      (spec_mixture_density MoreExamples.trainer_sample_axis
                         Examples.theta2 b))
                (get nn [0; b])).
Proof.
  apply (log_prob_proposal_posterior_weighted MoreExamples.trainer_sample_axis
           Examples.theta2 Examples.x2 Examples.x2 None 2 []).
  - reflexivity.
  - reflexivity.
  - reflexivity.
  - repeat constructor.
Defined.

(** C1 fails as stated: with an estimator that keeps the sample axis of
    [theta.unsqueeze(0)] and a batch of two samples with finite
    log-densities, the function returns a tensor of shape [(1, 2)], not a
    tensor of length [batch_size = 2]; its two values are the weight 2 times
    the log-probability -1. *)
Lemma log_prob_proposal_posterior_keeps_sample_axis :
  Torch.size0 Examples.theta2 = Ok 2 /\
  Torch.isfinite_all (log_prob (_prior MoreExamples.trainer_sample_axis)
                        Examples.theta2) = true /\
  finite_history (_proposal_roundwise MoreExamples.trainer_sample_axis)
    Examples.theta2 2 /\
  exists out tr',
    _log_prob_proposal_posterior MoreExamples.trainer_sample_axis
      Examples.theta2 Examples.x2 Examples.x2 None [] = (Ok out, tr') /\
    shape out = [1; 2] /\
    shape out <> [2] /\
    get out [0; 0] = Fin (-2) /\ get out [0; 1] = Fin (-2).
Proof.
  split; [reflexivity |]. split; [reflexivity |].
  assert (Hfin : finite_history [Examples.unit_box] Examples.theta2 2)
    by repeat constructor.
  split; [exact Hfin |].
  destruct (single_proposal_weight_real MoreExamples.trainer_sample_axis
              Examples.theta2 2 [] Examples.unit_box eq_refl eq_refl eq_refl
              eq_refl eq_refl) as (w & tr1 & Hw & Hw_shape & Hweight).
  destruct (mul_sample_axis w
              (net_log_prob MoreExamples.sample_axis_net
                 (Torch.unsqueeze0 Examples.theta2) Examples.x2) 2 Hw_shape
              eq_refl) as (out & Hmul & Hout_shape & Hout_get).
  exists out. eexists. split; [| split; [assumption | split]].
  - rewrite (posterior_after_weights _ _ Examples.x2 Examples.x2 None _ _ _ Hw).
    cbn [MoreExamples.trainer_sample_axis _neural_net]. rewrite Hmul.
    reflexivity.
  - rewrite Hout_shape. discriminate.
  - split.
    + rewrite (Hout_get 0), (Hweight 0) by lia. simpl. apply (f_equal Fin). lra.
    + rewrite (Hout_get 1), (Hweight 1) by lia. simpl. apply (f_equal Fin). lra.
Qed.

(** Round index 1 with the prior as the only history entry, two samples:
    the weight 2 times the estimator's log-probability -1, after two
    evaluations of the prior, two of the history entry and one of the
    estimator. *)
Example log_prob_proposal_posterior_round1 :
  exists out,
    _log_prob_proposal_posterior Examples.trainer_round1 Examples.theta2
      Examples.x2 Examples.x2 None []
    = (Ok out, [PriorLogProb; PriorLogProb;
                ProposalLogProb 0; ProposalLogProb 0; NetLogProb]) /\
    shape out = [2] /\
    get out [0] = Fin (-2) /\ get out [1] = Fin (-2).
Proof.
  destruct (single_proposal_weight_real Examples.trainer_round1 Examples.theta2
              2 [] Examples.unit_box eq_refl eq_refl eq_refl eq_refl eq_refl)
    as (w & tr' & Hw & Hw_shape & Hw_get).
  destruct (importance_weights_finite Examples.trainer_round1 Examples.theta2
              2 [] eq_refl eq_refl eq_refl)
    as (w' & Hw' & _); [repeat constructor |].
  rewrite Hw in Hw'. injection Hw' as Hww Htr. subst w' tr'.
  destruct (broadcast2_same1 smul w
              (net_log_prob Examples.flat_net
                 (Torch.unsqueeze0 Examples.theta2) Examples.x2) 2 Hw_shape
              eq_refl) as (out & Hmul & Hout_shape & Hout_get).
  exists out. split; [| split; [assumption |]].
  - unfold _log_prob_proposal_posterior. autounfold with npe. rewrite Hw.
    unfold Torch.mul. simpl _neural_net. rewrite Hmul. reflexivity.
  - split.
    + rewrite (Hout_get 0), (Hw_get 0) by lia. simpl. apply (f_equal Fin). lra.
    + rewrite (Hout_get 1), (Hw_get 1) by lia. simpl. apply (f_equal Fin). lra.
Qed.

End NPE_B_Facts.

(** * Properties of [BinomialGammaPotential] *)

Module Potential_Facts.
Import Potential.

Local Open Scope result_scope.

#[local] Arguments Nat.div : simpl never.
#[local] Arguments Nat.modulo : simpl never.
#[local] Arguments Nat.min : simpl nomatch.
#[local] Arguments Nat.eqb : simpl never.

(** Multiplying by one changes no element, finite or not. *)
Lemma smul_1_r (a : scalar) : smul a (Fin 1) = a.
Proof.
  destruct a as [x | | |]; simpl; try reflexivity.
  - f_equal. lra.
  - unfold inf_times. now rewrite (sign_pos 1 Rlt_0_1).
  - unfold inf_times. now rewrite (sign_pos 1 Rlt_0_1).
Qed.

(** A reshape with an inferred last size succeeds when the sizes given are
    not zero and divide the number of elements. *)
Lemma reshape_infer_ok (t : Tensor) (pre : list nat) (m : nat) :
  Torch.numel (shape t) = Torch.numel pre * m -> 0 < Torch.numel pre ->
  Torch.reshape_infer t pre = Ok (Torch.view t (pre ++ [m])).
Proof.
  intros Hn Hp. unfold Torch.reshape_infer. rewrite Hn.
  destruct (Torch.numel pre =? 0) eqn:Hz.
  - apply Nat.eqb_eq in Hz. lia.
  - rewrite (Nat.mul_comm (Torch.numel pre) m), Nat.Div0.mod_mul. simpl.
    rewrite Nat.div_mul by lia. reflexivity.
Qed.

(** The element [(b, 0, j)] of a [(B, D)] tensor reshaped to [(B, 1, D)]. *)
Lemma view_get_insert (t : Tensor) (B D b j : nat) :
  shape t = [B; D] -> j < D ->
  get (Torch.view t [B; 1; D]) [b; 0; j] = get t [b; j].
Proof.
  intros Hs Hj. unfold Torch.view. simpl. rewrite Hs. simpl.
  replace (b * (D * 1 + 0) + (j * 1 + 0)) with (j + b * D) by lia.
  rewrite Nat.mul_1_r, Nat.div_add, Nat.Div0.mod_add by lia.
  rewrite Nat.div_small, Nat.mod_small, Nat.div_1_r by lia. reflexivity.
Qed.

(** The element [(0, t, 0)] of a [(T, 1)] tensor reshaped to [(1, T, 1)]. *)
Lemma view_get_column (t : Tensor) (T i : nat) :
  shape t = [T; 1] ->
  get (Torch.view t [1; T; 1]) [0; i; 0] = get t [i; 0].
Proof.
  intros Hs. unfold Torch.view. simpl. rewrite Hs. simpl.
  replace (i * 1 + 0) with i by lia.
  now rewrite !Nat.div_1_r, Nat.mod_1_r.
Qed.

(** Case analysis on the size tests of broadcasting. *)
Ltac size_cases :=
  repeat match goal with
    | |- context [?a =? ?b] =>
        let E := fresh "E" in
        destruct (a =? b) eqn:E;
        [apply Nat.eqb_eq in E | apply Nat.eqb_neq in E];
        try lia; try subst
    end.

(** Line 44: [theta.reshape(batch_size, 1, -1)] for a batch of shape
    [(B, D)]. *)
Lemma reshape_theta (theta : Tensor) (B D : nat) :
  shape theta = [B; D] -> 1 <= B ->
  exists out,
    Torch.reshape_infer theta [B; 1] = Ok out /\
    is3 out B 1 D (fun b _ j => get theta [b; j]).
Proof.
  intros Hs HB. exists (Torch.view theta [B; 1; D]). split.
  - apply (reshape_infer_ok theta [B; 1] D); rewrite ?Hs; simpl; lia.
  - split; [reflexivity |]. intros b j k Hb Hj Hk.
    assert (j = 0) by lia. subst j. now apply view_get_insert.
Qed.

(** Line 65: [reshape(1, num_trials, -1)] of the first observation column. *)
Lemma reshape_column (x : Tensor) (T : nat) (f : nat -> nat -> scalar) :
  is2 x T 1 f -> 1 <= T ->
  exists out,
    Torch.reshape_infer x [1; T] = Ok out /\
    is3 out 1 T 1 (fun _ t _ => f t 0).
Proof.
  intros [Hs Hget] HT. exists (Torch.view x [1; T; 1]). split.
  - apply (reshape_infer_ok x [1; T] 1); rewrite ?Hs; simpl; lia.
  - split; [reflexivity |]. intros i j k Hi Hj Hk.
    assert (i = 0) by lia. assert (k = 0) by lia. subst i k.
    rewrite (view_get_column x T j Hs). apply Hget; lia.
Qed.

(** A slice of the last dimension of a tensor of rank 3. *)
Lemma narrow_last (t : Tensor) (n0 n1 n2 lo : nat) (hi : option nat)
    (f : nat -> nat -> nat -> scalar) :
  is3 t n0 n1 n2 f ->
  exists out,
    Torch.narrow 2 lo hi t = Ok out /\
    is3 out n0 n1
      (match hi with Some h => Nat.min h n2 | None => n2 end - Nat.min lo n2)
      (fun i j k => f i j (Nat.min lo n2 + k)).
Proof.
  intros [Hs Hget]. unfold Torch.narrow. rewrite Hs. simpl.
  eexists. split; [reflexivity |]. split; [reflexivity |].
  intros i j k Hi Hj Hk. simpl. apply Hget; try assumption.
  destruct hi as [h |]; lia.
Qed.

(** A slice of the columns of a matrix. *)
Lemma narrow_columns (x : Tensor) (T C lo : nat) (hi : option nat)
    (f : nat -> nat -> scalar) :
  is2 x T C f ->
  exists out,
    Torch.narrow 1 lo hi x = Ok out /\
    is2 out T
      (match hi with Some h => Nat.min h C | None => C end - Nat.min lo C)
      (fun t c => f t (Nat.min lo C + c)).
Proof.
  intros [Hs Hget]. unfold Torch.narrow. rewrite Hs. simpl.
  eexists. split; [reflexivity |]. split; [reflexivity |].
  intros i j Hi Hj. simpl. apply Hget; try assumption.
  destruct hi as [h |]; lia.
Qed.

(** Indexing the last dimension of a tensor of rank 3. *)
Lemma select_last (t : Tensor) (n0 n1 n2 k : nat)
    (f : nat -> nat -> nat -> scalar) :
  is3 t n0 n1 n2 f -> k < n2 ->
  exists out, Torch.select 2 k t = Ok out /\ is2 out n0 n1 (fun i j => f i j k).
Proof.
  intros [Hs Hget] Hk. unfold Torch.select. rewrite Hs. simpl.
  apply Nat.ltb_lt in Hk as Hk'. rewrite Hk'.
  eexists. split; [reflexivity |]. split; [reflexivity |].
  intros i j Hi Hj. simpl. now apply Hget.
Qed.

(** One column of a matrix. *)
Lemma select_column (x : Tensor) (T C c : nat) (f : nat -> nat -> scalar) :
  is2 x T C f -> c < C ->
  exists out,
    Torch.select 1 c x = Ok out /\ shape out = [T] /\
    forall t, t < T -> get out [t] = f t c.
Proof.
  intros [Hs Hget] Hc. unfold Torch.select. rewrite Hs. simpl.
  apply Nat.ltb_lt in Hc as Hc'. rewrite Hc'.
  eexists. split; [reflexivity |]. split; [reflexivity |].
  intros t Ht. simpl. now apply Hget.
Qed.

(** The broadcast shapes that occur in [iid_likelihood]. *)
Ltac broadcast_shape :=
  unfold Torch.broadcast_shapes; simpl; size_cases; reflexivity.

Lemma broadcast_column_row (B T : nat) :
  Torch.broadcast_shapes [B; 1] [T] = Some [B; T].
Proof. broadcast_shape. Qed.

Lemma broadcast_trials_samples (B T : nat) :
  Torch.broadcast_shapes [1; T; 1] [B; 1; 1] = Some [B; T; 1].
Proof. broadcast_shape. Qed.

Lemma broadcast_samples_trials (B T : nat) :
  Torch.broadcast_shapes [B; 1; 1] [1; T; 1] = Some [B; T; 1].
Proof. broadcast_shape. Qed.

Lemma broadcast_same3 (B T : nat) :
  Torch.broadcast_shapes [B; T; 1] [B; T; 1] = Some [B; T; 1].
Proof. broadcast_shape. Qed.

Lemma broadcast_full_samples (B T : nat) :
  Torch.broadcast_shapes [B; T; 1] [B; 1; 1] = Some [B; T; 1].
Proof. broadcast_shape. Qed.

Lemma broadcast_full_trials (B T : nat) :
  Torch.broadcast_shapes [B; T; 1] [1; T; 1] = Some [B; T; 1].
Proof. broadcast_shape. Qed.

Lemma broadcast_same2 (B T : nat) :
  Torch.broadcast_shapes [B; T] [B; T] = Some [B; T].
Proof. broadcast_shape. Qed.

Lemma broadcast_row (T : nat) :
  Torch.broadcast_shapes [1; T] [T] = Some [1; T].
Proof. broadcast_shape. Qed.

(** A column of [B >= 2] samples against a vector of [B] elements: the
    result is a square. *)
Lemma broadcast_column_vector (B : nat) :
  2 <= B -> Torch.broadcast_shapes [B; 1] [B] = Some [B; B].
Proof. intros HB. broadcast_shape. Qed.

Section BinomialTerm.
Context `{TorchDistributions}.

(** One binomial component: success probabilities of shape [(B, 1)] against
    the [T] observed counts. *)
Lemma binomial_term (p v : Tensor) (B T : nat) (f : nat -> nat -> scalar)
    (g : nat -> scalar) :
  is2 p B 1 f -> shape v = [T] -> (forall t, t < T -> get v [t] = g t) ->
  exists out,
    Binomial_log_prob (mkBinomial p) v = Ok out /\
    is2 out B T (fun b t => binomial_log_prob (f b 0) (g t)).
Proof.
  intros [Hs Hget] Hv Hgv. unfold Binomial_log_prob, Torch.broadcast2. simpl.
  rewrite Hs, Hv, broadcast_column_row.
  eexists. split; [reflexivity |]. split; [reflexivity |].
  intros b t Hb Ht. simpl. unfold Torch.bindex. simpl.
  rewrite <- (Hget b 0), <- (Hgv t) by lia.
  f_equal; f_equal; size_cases; f_equal; lia.
Qed.

End BinomialTerm.

(** A comprehension whose elements all evaluate returns their values, in
    order. *)
Lemma comprehension_ok {A B : Type} (f : A -> result B) (P : A -> B -> Prop)
    (xs : list A) :
  (forall x, In x xs -> exists y, f x = Ok y /\ P x y) ->
  exists ys, comprehension f xs = Ok ys /\ Forall2 P xs ys.
Proof.
  induction xs as [| x xs IH]; intros Hf.
  - exists []. split; [reflexivity | constructor].
  - destruct (Hf x (or_introl eq_refl)) as (y & Hy & HP).
    destruct IH as (ys & Hys & HPs).
    { intros x' Hin. apply Hf. now right. }
    exists (y :: ys). split.
    + simpl. rewrite Hy. simpl. rewrite Hys. reflexivity.
    + now constructor.
Qed.

(** A list related element by element to a range of numbers. *)
Lemma Forall2_seq_nth {B : Type} (P : nat -> B -> Prop) (ys : list B) (d : B) :
  forall start len,
    Forall2 P (seq start len) ys ->
    length ys = len /\ forall k, k < len -> P (start + k) (nth k ys d).
Proof.
  induction ys as [| y ys IH]; intros start len HF.
  - inversion HF as [Hseq |]. destruct len; [| discriminate].
    split; [reflexivity | intros k Hk; lia].
  - destruct len as [| len]; [inversion HF |].
    simpl in HF. inversion HF as [| x y' xs ys' HP HF']; subst.
    destruct (IH (S start) len HF') as [Hlen Hnth].
    split; [simpl; lia |].
    intros [| k] Hk; simpl.
    + now rewrite Nat.add_0_r.
    + replace (start + S k) with (S start + k) by lia. apply Hnth. lia.
Qed.

(** Stacking [K >= 1] matrices of one shape. *)
Lemma stack_matrices (ts : list Tensor) (K n0 n1 : nat)
    (f : nat -> nat -> nat -> scalar) (d : Tensor) :
  1 <= K -> length ts = K ->
  (forall k, k < K -> is2 (nth k ts d) n0 n1 (f k)) ->
  exists out, Torch.stack ts = Ok out /\ is3 out K n0 n1 f.
Proof.
  intros HK Hlen Hts. destruct ts as [| t0 ts']; [simpl in Hlen; lia |].
  assert (Hshape : forall t, In t (t0 :: ts') -> shape t = [n0; n1]).
  { intros t Hin. apply (In_nth _ _ d) in Hin as (k & Hk & <-).
    apply Hts. lia. }
  unfold Torch.stack.
  assert (Hall : forallb (fun t => if list_eq_dec Nat.eq_dec (shape t) (shape t0)
                                   then true else false) (t0 :: ts') = true).
  { apply forallb_forall. intros t Hin.
    rewrite (Hshape t Hin), (Hshape t0 (or_introl eq_refl)).
    destruct (list_eq_dec Nat.eq_dec [n0; n1] [n0; n1]); congruence. }
  rewrite Hall. eexists. split; [reflexivity |]. split.
  - cbn [shape]. now rewrite Hlen, (Hshape t0 (or_introl eq_refl)).
  - intros k i j Hk Hi Hj. cbn [get hd tl].
    rewrite (nth_indep _ t0 d) by lia.
    now apply (Hts k Hk).
Qed.

(** Lines 59-60: the two transpositions of the stacked terms. *)
Lemma transpose_01 (t : Tensor) (n0 n1 n2 : nat)
    (f : nat -> nat -> nat -> scalar) :
  is3 t n0 n1 n2 f ->
  exists out,
    Torch.transpose 0 1 t = Ok out /\ is3 out n1 n0 n2 (fun i j k => f j i k).
Proof.
  intros [Hs Hget]. unfold Torch.transpose. rewrite Hs. simpl.
  eexists. split; [reflexivity |]. split; [reflexivity |].
  intros i j k Hi Hj Hk. simpl. now apply Hget.
Qed.

Lemma transpose_12 (t : Tensor) (n0 n1 n2 : nat)
    (f : nat -> nat -> nat -> scalar) :
  is3 t n0 n1 n2 f ->
  exists out,
    Torch.transpose 1 2 t = Ok out /\ is3 out n0 n2 n1 (fun i j k => f i k j).
Proof.
  intros [Hs Hget]. unfold Torch.transpose. rewrite Hs. simpl.
  eexists. split; [reflexivity |]. split; [reflexivity |].
  intros i j k Hi Hj Hk. simpl. now apply Hget.
Qed.

(** The sum over the last dimension of a tensor of rank 3. *)
Lemma sum_last_3 (t : Tensor) (n0 n1 n2 : nat)
    (f : nat -> nat -> nat -> scalar) :
  is3 t n0 n1 n2 f ->
  exists out,
    Torch.sum_last t = Ok out /\
    is2 out n0 n1 (fun i j => ssum (map (f i j) (seq 0 n2))).
Proof.
  intros [Hs Hget]. unfold Torch.sum_last, Torch.sum. rewrite Hs. simpl.
  eexists. split; [reflexivity |]. split; [reflexivity |].
  intros i j Hi Hj. simpl. f_equal. apply map_ext_in.
  intros k Hk. apply in_seq in Hk. apply Hget; lia.
Qed.

(** The sum over the trials of a matrix. *)
Lemma sum_trials (t : Tensor) (n0 n1 : nat) (f : nat -> nat -> scalar) :
  is2 t n0 n1 f ->
  exists out,
    Torch.sum 1 t = Ok out /\ shape out = [n0] /\
    forall i, i < n0 -> get out [i] = ssum (map (f i) (seq 0 n1)).
Proof.
  intros [Hs Hget]. unfold Torch.sum. rewrite Hs. simpl.
  eexists. split; [reflexivity |]. split; [reflexivity |].
  intros i Hi. simpl. f_equal. apply map_ext_in.
  intros k Hk. apply in_seq in Hk. apply Hget; lia.
Qed.

Section InverseGammaTerm.
Context `{TorchDistributions}.

(** Lines 63-65: the inverse-gamma term, for a float or a per-trial
    concentration scaling. *)
Lemma inverse_gamma_term (self : BinomialGammaPotential) (beta value : Tensor)
    (B T : nat) (fb fv : nat -> nat -> nat -> scalar) :
  per_trial_scaling self T -> is3 beta B 1 1 fb -> is3 value 1 T 1 fv ->
  exists c d out,
    scaled_ones self beta = Ok c /\
    new_InverseGamma c beta = Ok d /\
    InverseGamma_log_prob d value = Ok out /\
    is3 out B T 1
      (fun b t _ => inverse_gamma_log_prob (concentration_at self t)
                      (fb b 0 0) (fv 0 t 0)).
Proof.
  unfold per_trial_scaling, scaled_ones, concentration_at.
  intros Hscaling [Hbeta Hfb] [Hvalue Hfv].
  destruct (concentration_scaling self) as [c | cs].
  - eexists. eexists. eexists. split; [reflexivity |].
    unfold new_InverseGamma. simpl shape. rewrite Hbeta.
    rewrite (broadcast_same3 B 1). split; [reflexivity |].
    unfold InverseGamma_log_prob. simpl batch_shape. rewrite Hvalue.
    rewrite broadcast_samples_trials. split; [reflexivity |].
    split; [reflexivity |].
    intros b t k Hb Ht Hk. assert (k = 0) by lia. subst k.
    cbn [get concentration rate shape Torch.scale Torch.map_tensor
         Torch.ones_like Torch.full].
    rewrite ?Hbeta, ?Hvalue, ?Hscaling, smul_1_r. unfold Torch.bindex. simpl.
    rewrite <- (Hfb b 0 0), <- (Hfv 0 t 0) by lia.
    f_equal; f_equal; size_cases; repeat f_equal; lia.
  -
    unfold Torch.mul, Torch.broadcast2. simpl shape. rewrite Hscaling, Hbeta.
    rewrite broadcast_trials_samples.
    eexists. eexists. eexists. split; [reflexivity |].
    unfold new_InverseGamma. simpl shape. rewrite Hbeta.
    rewrite broadcast_full_samples. split; [reflexivity |].
    unfold InverseGamma_log_prob. simpl batch_shape. rewrite Hvalue.
    rewrite broadcast_full_trials. split; [reflexivity |].
    split; [reflexivity |].
    intros b t k Hb Ht Hk. assert (k = 0) by lia. subst k.
    cbn [get concentration rate shape Torch.ones_like Torch.full].
    rewrite ?Hbeta, ?Hvalue, ?Hscaling, smul_1_r. unfold Torch.bindex. simpl.
    rewrite <- (Hfb b 0 0), <- (Hfv 0 t 0) by lia.
    f_equal; f_equal; size_cases; repeat f_equal; lia.
Qed.

(** The sum of the binomial terms plus the squeezed inverse-gamma term,
    when there is one sample or there are at least two trials. *)
Lemma add_squeeze (choices rts : Tensor) (B T : nat)
    (f : nat -> nat -> scalar) (g : nat -> nat -> nat -> scalar) :
  is2 choices B T f -> is3 rts B T 1 g ->
  1 <= B -> 1 <= T -> B = 1 \/ 2 <= T ->
  exists out,
    Torch.add choices (Torch.squeeze rts) = Ok out /\
    is2 out B T (fun b t => sadd (f b t) (g b t 0)).
Proof.
  intros [Hc Hf] [Hr Hg] HB HT Hcase.
  unfold Torch.add, Torch.broadcast2, Torch.squeeze. simpl shape.
  rewrite Hc, Hr. simpl filter.
  destruct (B =? 1) eqn:EB; [apply Nat.eqb_eq in EB | apply Nat.eqb_neq in EB];
    (destruct (T =? 1) eqn:ET; [apply Nat.eqb_eq in ET | apply Nat.eqb_neq in ET]);
    try lia; simpl negb; cbv iota.
  - subst B T. eexists. split; [reflexivity |]. split; [reflexivity |].
    intros b t Hb Ht. assert (b = 0) by lia. assert (t = 0) by lia. subst b t.
    simpl. rewrite <- (Hf 0 0), <- (Hg 0 0 0) by lia. reflexivity.
  - subst B. rewrite broadcast_row.
    eexists. split; [reflexivity |]. split; [reflexivity |].
    intros b t Hb Ht. assert (b = 0) by lia. subst b.
    rewrite <- (Hf 0 t), <- (Hg 0 t 0) by lia.
    cbn [get]. unfold Torch.bindex. simpl.
    f_equal; f_equal; size_cases; repeat f_equal; lia.
  - rewrite broadcast_same2.
    eexists. split; [reflexivity |]. split; [reflexivity |].
    intros b t Hb Ht.
    rewrite <- (Hf b t), <- (Hg b t 0) by lia.
    cbn [get]. unfold Torch.bindex. simpl.
    f_equal; f_equal; size_cases; repeat f_equal; lia.
Qed.

(** With one trial and at least two samples the squeezed inverse-gamma term
    is a vector of [B] elements, and the sum is a square matrix. *)
Lemma add_squeeze_single_trial (choices rts : Tensor) (B : nat) :
  shape choices = [B; 1] -> shape rts = [B; 1; 1] -> 2 <= B ->
  exists out,
    Torch.add choices (Torch.squeeze rts) = Ok out /\ shape out = [B; B].
Proof.
  intros Hc Hr HB.
  unfold Torch.add, Torch.broadcast2, Torch.squeeze. simpl shape.
  rewrite Hc, Hr. simpl filter.
  destruct (B =? 1) eqn:EB; [apply Nat.eqb_eq in EB; lia |].
  simpl negb. cbv iota. rewrite (broadcast_column_vector B HB).
  eexists. split; reflexivity.
Qed.

End InverseGammaTerm.

(** A description can be replaced by one that agrees with it on the
    indices of the shape. *)
Lemma is3_ext (t : Tensor) (n0 n1 n2 n2' : nat)
    (f f' : nat -> nat -> nat -> scalar) :
  is3 t n0 n1 n2 f -> n2 = n2' ->
  (forall i j k, i < n0 -> j < n1 -> k < n2' -> f i j k = f' i j k) ->
  is3 t n0 n1 n2' f'.
Proof.
  intros [Hs Hget] <- Hext. split; [assumption |].
  intros i j k Hi Hj Hk. rewrite (Hget i j k Hi Hj Hk). now apply Hext.
Qed.

Lemma is2_ext (t : Tensor) (n0 n1 n1' : nat) (f f' : nat -> nat -> scalar) :
  is2 t n0 n1 f -> n1 = n1' ->
  (forall i j, i < n0 -> j < n1' -> f i j = f' i j) ->
  is2 t n0 n1' f'.
Proof.
  intros [Hs Hget] <- Hext. split; [assumption |].
  intros i j Hi Hj. rewrite (Hget i j Hi Hj). now apply Hext.
Qed.

Section JointLikelihood.
Context `{TorchDistributions}.

(** The two terms of the joint log-likelihood (lines 42-65) for a batch of
    [B] samples of [1 + K] parameters and [T] observed trials. *)
Lemma joint_likelihood_parts (self : BinomialGammaPotential) (theta : Tensor)
    (B T K C : nat) :
  shape theta = [B; S K] -> shape (x_o self) = [T; C] -> S K <= C ->
  1 <= K -> 1 <= B -> 1 <= T -> per_trial_scaling self T ->
  exists choices rts,
    is2 choices B T
      (fun b t => ssum (map (fun k => binomial_log_prob (get theta [b; 1 + k])
                                        (get (x_o self) [t; 1 + k]))
                            (seq 0 K))) /\
    is3 rts B T 1
      (fun b t _ => inverse_gamma_log_prob (concentration_at self t)
                      (get theta [b; 0]) (get (x_o self) [t; 0])) /\
    joint_likelihood self theta = Torch.add choices (Torch.squeeze rts).
Proof.
  intros Htheta Hx HC HK HB HT Hscaling.
  assert (Hxo : is2 (x_o self) T C (fun t c => get (x_o self) [t; c]))
    by (split; auto).
  unfold joint_likelihood, Torch.size0. rewrite Htheta, Hx. cbn [rbind].
  (* theta.reshape(batch_size, 1, -1) and the split at position 1 *)
  destruct (reshape_theta theta B (S K) Htheta HB) as (theta3 & -> & Htheta3).
  cbn [rbind].
  destruct (narrow_last theta3 B 1 (S K) 0 (Some 1) _ Htheta3)
    as (beta & -> & Hbeta0).
  assert (Hbeta : is3 beta B 1 1 (fun b _ _ => get theta [b; 0])).
  { apply (is3_ext _ _ _ _ _ _ _ Hbeta0); [lia |].
    intros i j k Hi Hj Hk. assert (k = 0) by lia. subst k. reflexivity. }
  clear Hbeta0. cbn [rbind].
  destruct (narrow_last theta3 B 1 (S K) 1 None _ Htheta3)
    as (rhos & -> & Hrhos0).
  assert (Hrhos : is3 rhos B 1 K (fun b _ k => get theta [b; 1 + k])).
  { apply (is3_ext _ _ _ _ _ _ _ Hrhos0); [lia |].
    intros i j k Hi Hj Hk. reflexivity. }
  clear Hrhos0. cbn [rbind].
  rewrite (proj1 Hrhos). cbn [last].
  (* the binomial components *)
  destruct (comprehension_ok
              (fun rho_idx =>
                 p <- Torch.select 2 rho_idx rhos ;;
                 v <- Torch.select 1 (1 + rho_idx) (x_o self) ;;
                 Binomial_log_prob (mkBinomial p) v)
              (fun k y =>
                 is2 y B T (fun b t => binomial_log_prob (get theta [b; 1 + k])
                                         (get (x_o self) [t; 1 + k])))
              (seq 0 K))
    as (terms & -> & Hterms).
  { intros k Hk. apply in_seq in Hk.
    destruct (select_last rhos B 1 K k _ Hrhos) as (p & -> & Hp); [lia |].
    destruct (select_column (x_o self) T C (1 + k) _ Hxo)
      as (v & -> & Hv_shape & Hv_get); [lia |].
    cbn [rbind].
    destruct (binomial_term p v B T _ (fun t => get (x_o self) [t; 1 + k])
                Hp Hv_shape Hv_get) as (y & Hy & Hy_is).
    exists y. split; assumption. }
  cbn [rbind].
  destruct (Forall2_seq_nth _ terms beta 0 K Hterms) as [Hlen Hnth].
  destruct (stack_matrices terms K B T
              (fun k b t => binomial_log_prob (get theta [b; 1 + k])
                              (get (x_o self) [t; 1 + k]))
              beta HK Hlen Hnth) as (stacked & -> & Hstacked).
  cbn [rbind].
  destruct (transpose_01 stacked K B T _ Hstacked) as (stacked' & -> & Hstacked').
  cbn [rbind].
  destruct (transpose_12 stacked' B K T _ Hstacked')
    as (logprob_choices & -> & Hchoices).
  cbn [rbind].
  (* the inverse-gamma term *)
  destruct (narrow_columns (x_o self) T C 0 (Some 1) _ Hxo)
    as (rts0 & Hrts0 & Hrts0_is).
  assert (Hcol : is2 rts0 T 1 (fun t _ => get (x_o self) [t; 0])).
  { apply (is2_ext _ _ _ _ _ _ Hrts0_is); [lia |]. intros i j Hi Hj.
    assert (j = 0) by lia. subst j. reflexivity. }
  destruct (reshape_column rts0 T _ Hcol HT) as (value & Hvalue & Hvalue_is).
  destruct (inverse_gamma_term self beta value B T _ _ Hscaling Hbeta Hvalue_is)
    as (c & d & logprob_rts & -> & Hd & Hlp & Hrts).
  cbn [rbind]. rewrite Hd. cbn [rbind]. rewrite Hrts0. cbn [rbind].
  rewrite Hvalue. cbn [rbind]. rewrite Hlp. cbn [rbind].
  destruct (sum_last_3 logprob_choices B T K _ Hchoices)
    as (choices & -> & Hsum).
  cbn [rbind].
  exists choices, logprob_rts. split; [exact Hsum |]. split; [exact Hrts |].
  reflexivity.
Qed.

End JointLikelihood.

Section IidLikelihood.
Context `{TorchDistributions}.

(** The shape test decides equality of shapes. *)
Lemma shape_eqb_true (s1 s2 : list nat) : shape_eqb s1 s2 = true <-> s1 = s2.
Proof.
  unfold shape_eqb. destruct (list_eq_dec Nat.eq_dec s1 s2); split; congruence.
Qed.

Lemma shape_eqb_false (s1 s2 : list nat) : shape_eqb s1 s2 = false <-> s1 <> s2.
Proof.
  unfold shape_eqb. destruct (list_eq_dec Nat.eq_dec s1 s2); split; congruence.
Qed.

(** A matrix whose described elements are finite passes the finiteness
    check. *)
Lemma isfinite_all_is2 (t : Tensor) (n0 n1 : nat) (f : nat -> nat -> scalar) :
  is2 t n0 n1 f ->
  (forall i j, i < n0 -> j < n1 -> isfinite (f i j) = true) ->
  Torch.isfinite_all t = true.
Proof.
  intros [Hs Hget] Hfin. unfold Torch.isfinite_all. apply forallb_forall.
  intros idx Hin. apply in_indices in Hin. rewrite Hs in Hin.
  inversion Hin as [| i n0' idx1 s1 Hi H1]; subst.
  inversion H1 as [| j n1' idx2 s2 Hj H2]; subst.
  inversion H2; subst. rewrite (Hget i j Hi Hj). now apply Hfin.
Qed.

(** The squeeze of a [(B, 1, 1)] tensor with [B >= 2] is a vector. *)
Lemma squeeze_single_trial (rts : Tensor) (B : nat) :
  shape rts = [B; 1; 1] -> 2 <= B -> shape (Torch.squeeze rts) = [B].
Proof.
  intros Hr HB. unfold Torch.squeeze. simpl shape. rewrite Hr. simpl filter.
  destruct (B =? 1) eqn:EB; [apply Nat.eqb_eq in EB; lia | reflexivity].
Qed.

(** With one observed trial and at least two samples the squeezed
    inverse-gamma term is a vector, the joint log-likelihood is a square
    matrix and the shape assertion fails. *)
Lemma single_trial_square (self : BinomialGammaPotential) (theta : Tensor)
    (B K C : nat) :
  shape theta = [B; S K] -> shape (x_o self) = [1; C] -> S K <= C ->
  1 <= K -> 2 <= B -> per_trial_scaling self 1 ->
  exists choices rts joint,
    shape choices = [B; 1] /\
    shape rts = [B; 1; 1] /\
    shape (Torch.squeeze rts) = [B] /\
    joint_likelihood self theta = Torch.add choices (Torch.squeeze rts) /\
    joint_likelihood self theta = Ok joint /\
    shape joint = [B; B] /\
    iid_likelihood self theta = Raise (AssertionError "").
Proof.
  intros Htheta Hx HC HK HB Hscaling.
  destruct (joint_likelihood_parts self theta B 1 K C Htheta Hx HC HK)
    as (choices & rts & [Hc _] & [Hr _] & Hjoint); [lia | lia | assumption |].
  destruct (add_squeeze_single_trial choices rts B Hc Hr HB)
    as (joint & Hadd & Hshape).
  exists choices, rts, joint. split; [assumption |]. split; [assumption |].
  split; [now apply squeeze_single_trial |]. split; [assumption |].
  rewrite Hjoint. split; [assumption |]. split; [assumption |].
  unfold iid_likelihood. rewrite Hjoint, Hadd. cbn [rbind].
  unfold Torch.size0. rewrite Htheta, Hx. cbn [rbind]. rewrite Hshape.
  assert (Hne : shape_eqb [B; B] [B; 1] = false).
  { apply shape_eqb_false. intros Heq. injection Heq. lia. }
  rewrite Hne. reflexivity.
Qed.

(** Without binomial components the list to stack is empty. *)
Lemma no_component_raises (self : BinomialGammaPotential) (theta : Tensor)
    (B T : nat) (rest : list nat) :
  shape theta = [B; 1] -> shape (x_o self) = T :: rest -> 1 <= B ->
  iid_likelihood self theta
  = Raise (RuntimeError "stack expects a non-empty TensorList").
Proof.
  intros Htheta Hx HB.
  unfold iid_likelihood, joint_likelihood, Torch.size0. rewrite Htheta, Hx.
  cbn [rbind].
  destruct (reshape_theta theta B 1 Htheta HB) as (theta3 & -> & Htheta3).
  cbn [rbind].
  destruct (narrow_last theta3 B 1 1 0 (Some 1) _ Htheta3) as (beta & -> & _).
  cbn [rbind].
  destruct (narrow_last theta3 B 1 1 1 None _ Htheta3) as (rhos & -> & [Hs _]).
  cbn [rbind]. rewrite Hs. reflexivity.
Qed.

(** The joint log-likelihood, when there is one sample or there are at
    least two trials. *)
Lemma joint_likelihood_ok (self : BinomialGammaPotential) (theta : Tensor)
    (B T K C : nat) :
  shape theta = [B; S K] -> shape (x_o self) = [T; C] -> S K <= C ->
  1 <= K -> 1 <= B -> 1 <= T -> B = 1 \/ 2 <= T ->
  per_trial_scaling self T ->
  exists joint,
    joint_likelihood self theta = Ok joint /\
    is2 joint B T (spec_joint self theta K).
Proof.
  intros Htheta Hx HC HK HB HT Hcase Hscaling.
  destruct (joint_likelihood_parts self theta B T K C Htheta Hx HC HK HB HT
              Hscaling) as (choices & rts & Hc & Hr & Hjoint).
  destruct (add_squeeze choices rts B T _ _ Hc Hr HB HT Hcase)
    as (joint & Hadd & Hjoint_is).
  exists joint. split; [now rewrite Hjoint |]. exact Hjoint_is.
Qed.

(** The log-likelihood of every sample, when there is one sample or there
    are at least two trials and the joint log-likelihoods are finite. *)
Lemma iid_likelihood_value (self : BinomialGammaPotential) (theta : Tensor)
    (B T K C : nat) :
  shape theta = [B; S K] -> shape (x_o self) = [T; C] -> S K <= C ->
  1 <= K -> 1 <= B -> 1 <= T -> B = 1 \/ 2 <= T ->
  per_trial_scaling self T ->
  (forall b t, b < B -> t < T -> isfinite (spec_joint self theta K b t) = true) ->
  exists out,
    iid_likelihood self theta = Ok out /\
    shape out = [B] /\
    forall b, b < B -> get out [b] = spec_iid self theta K T b.
Proof.
  intros Htheta Hx HC HK HB HT Hcase Hscaling Hfinite.
  destruct (joint_likelihood_ok self theta B T K C Htheta Hx HC HK HB HT
              Hcase Hscaling) as (joint & Hjoint & Hjoint_is).
  destruct (sum_trials joint B T _ Hjoint_is) as (out & Hsum & Hshape & Hget).
  exists out. split; [| split; [assumption |]].
  - unfold iid_likelihood. rewrite Hjoint. cbn [rbind].
    unfold Torch.size0. rewrite Htheta, Hx. cbn [rbind].
    rewrite (proj2 (shape_eqb_true _ _) (proj1 Hjoint_is)). cbn [py_assert rbind].
    rewrite (isfinite_all_is2 joint B T _ Hjoint_is Hfinite). cbn [rbind].
    exact Hsum.
  - intros b Hb. rewrite (Hget b Hb). reflexivity.
Qed.

(** C8: the joint log-likelihood that [iid_likelihood] computes is checked
    before the sum over the trials: when its shape is not
    [(batch_size, num_trials)] the shape assertion raises, when it has that
    shape and holds a non-finite value the finiteness assertion raises, and
    a value is returned only for a joint log-likelihood of that shape whose
    elements are all finite. *)
Theorem iid_likelihood_checks (self : BinomialGammaPotential)
    (theta joint : Tensor) :
  joint_likelihood self theta = Ok joint ->
  exists B T,
    Torch.size0 theta = Ok B /\ Torch.size0 (x_o self) = Ok T /\
    (shape joint <> [B; T] ->
     iid_likelihood self theta = Raise (AssertionError "")) /\
    (shape joint = [B; T] -> Torch.isfinite_all joint = false ->
     iid_likelihood self theta
     = Raise (AssertionError "Joint likelihood contains infs or nans")) /\
    (forall out, iid_likelihood self theta = Ok out ->
       shape joint = [B; T] /\
       (forall b t, b < B -> t < T -> isfinite (get joint [b; t]) = true) /\
       Torch.sum 1 joint = Ok out).
Proof.
  intros Hjoint.
  assert (Hsizes : exists B T, Torch.size0 theta = Ok B /\
                               Torch.size0 (x_o self) = Ok T).
  { unfold joint_likelihood in Hjoint.
    destruct (Torch.size0 theta) as [B | e]; [| discriminate].
    destruct (Torch.size0 (x_o self)) as [T | e]; [| discriminate].
    exists B, T. split; reflexivity. }
  destruct Hsizes as (B & T & HB & HT). exists B, T.
  split; [assumption |]. split; [assumption |].
  unfold iid_likelihood. rewrite Hjoint, HB, HT. cbn [rbind].
  destruct (shape_eqb (shape joint) [B; T]) eqn:Hshape.
  - apply shape_eqb_true in Hshape. cbn [py_assert rbind].
    destruct (Torch.isfinite_all joint) eqn:Hfin; cbn [py_assert rbind].
    + split; [congruence |]. split; [congruence |].
      intros out Hout. split; [assumption |]. split; [| assumption].
      intros b t Hb Ht. apply isfinite_all_get; [assumption |].
      rewrite Hshape. repeat constructor; assumption.
    + split; [congruence |]. split; [reflexivity |]. discriminate.
  - apply shape_eqb_false in Hshape. cbn [py_assert rbind].
    split; [reflexivity |]. split; [congruence |]. discriminate.
Qed.

End IidLikelihood.

Section SingleTrial.
Context `{TorchDistributions}.

(** C10: with exactly one observed trial and more than one sample, the
    squeeze of the inverse-gamma term leaves a vector of [batch_size]
    elements, the addition broadcasts to [(batch_size, batch_size)], and
    the shape assertion raises; without binomial components the call
    raises as well, so that in either case nothing is returned. *)
Theorem single_trial_raises (self : BinomialGammaPotential) (theta : Tensor)
    (B K C : nat) :
  shape theta = [B; S K] -> shape (x_o self) = [1; C] -> S K <= C ->
  2 <= B -> per_trial_scaling self 1 ->
  is_ok (iid_likelihood self theta) = false /\
  (1 <= K ->
   exists choices rts joint,
     shape choices = [B; 1] /\
     shape rts = [B; 1; 1] /\
     shape (Torch.squeeze rts) = [B] /\
     joint_likelihood self theta = Torch.add choices (Torch.squeeze rts) /\
     joint_likelihood self theta = Ok joint /\
     shape joint = [B; B] /\
     iid_likelihood self theta = Raise (AssertionError "")).
Proof.
  intros Htheta Hx HC HB Hscaling. destruct K as [| K].
  - split; [| lia].
    rewrite (no_component_raises self theta B 1 [C] Htheta Hx); [reflexivity | lia].
  - pose proof (single_trial_square self theta B (S K) C Htheta Hx HC
                  ltac:(lia) HB Hscaling) as Hsq.
    split; [| intros _; exact Hsq].
    destruct Hsq as (_ & _ & _ & _ & _ & _ & _ & _ & _ & ->). reflexivity.
Qed.

End SingleTrial.

#[local] Existing Instance Examples.closed_form.

Lemma single_trial_raises_witness :
  is_ok (iid_likelihood Examples.potential_one_trial Examples.theta_two_samples)
    = false /\
  (1 <= 1 ->
   exists choices rts joint,
     shape choices = [2; 1] /\
     shape rts = [2; 1; 1] /\
     shape (Torch.squeeze rts) = [2] /\
     joint_likelihood Examples.potential_one_trial Examples.theta_two_samples
       = Torch.add choices (Torch.squeeze rts) /\
     joint_likelihood Examples.potential_one_trial Examples.theta_two_samples
       = Ok joint /\
     shape joint = [2; 2] /\
     iid_likelihood Examples.potential_one_trial Examples.theta_two_samples
       = Raise (AssertionError "")).
Proof.
  apply (single_trial_raises Examples.potential_one_trial
           Examples.theta_two_samples 2 1 2).
  - reflexivity.
  - reflexivity.
  - lia.
  - lia.
  - exact I.
Defined.

(** C6 fails on the code for one observed trial and two samples: the call
    raises at the shape assertion instead of returning one log-likelihood
    per sample. *)
Theorem iid_likelihood_one_trial_two_samples :
  shape Examples.theta_two_samples = [2; 1 + 1] /\
  shape Examples.x_one_trial = [1; 2] /\
  iid_likelihood Examples.potential_one_trial Examples.theta_two_samples
  = Raise (AssertionError "").
Proof.
  split; [reflexivity |]. split; [reflexivity |].
  destruct (single_trial_square Examples.potential_one_trial
              Examples.theta_two_samples 2 1 2)
    as (_ & _ & _ & _ & _ & _ & _ & _ & _ & ->);
    try reflexivity; try lia.
Qed.

(** The same two samples against four observed trials: the call returns
    one value per sample, the sum over the trials of the joint
    log-likelihood. *)
Example iid_likelihood_four_trials :
  exists out,
    iid_likelihood Examples.potential_four_trials Examples.theta_two_samples
      = Ok out /\
    shape out = [2] /\
    forall b, b < 2 ->
      get out [b]
      = spec_iid Examples.potential_four_trials Examples.theta_two_samples 1 4 b.
Proof.
  apply (iid_likelihood_value Examples.potential_four_trials
           Examples.theta_two_samples 2 4 1 2);
    try reflexivity; try lia.
Qed.

Lemma iid_likelihood_checks_witness :
  exists joint,
    joint_likelihood Examples.potential_four_trials Examples.theta_two_samples
      = Ok joint /\
    exists B T,
      Torch.size0 Examples.theta_two_samples = Ok B /\
      Torch.size0 (x_o Examples.potential_four_trials) = Ok T /\
      (shape joint <> [B; T] ->
       iid_likelihood Examples.potential_four_trials Examples.theta_two_samples
       = Raise (AssertionError "")) /\
      (shape joint = [B; T] -> Torch.isfinite_all joint = false ->
       iid_likelihood Examples.potential_four_trials Examples.theta_two_samples
       = Raise (AssertionError "Joint likelihood contains infs or nans")) /\
      (forall out,
         iid_likelihood Examples.potential_four_trials Examples.theta_two_samples
           = Ok out ->
         shape joint = [B; T] /\
         (forall b t, b < B -> t < T -> isfinite (get joint [b; t]) = true) /\
         Torch.sum 1 joint = Ok out).
Proof.
  destruct (joint_likelihood_ok Examples.potential_four_trials
              Examples.theta_two_samples 2 4 1 2)
    as (joint & Hjoint & _); try reflexivity; try lia.
  exists joint. split; [exact Hjoint |].
  apply (iid_likelihood_checks Examples.potential_four_trials
           Examples.theta_two_samples joint Hjoint).
Defined.

(** C7, as the code has it: a concentration-scaling tensor whose first size
    differs from the number of observed trials fails the assertion of the
    constructor, so that no potential is built; otherwise (with at least
    one trial) it is reshaped to [(1, num_trials, m)], where [m] is the
    number of its elements per trial, which is the layout
    [(1, num_trials, 1)] with the same elements for a tensor of one
    dimension. *)
Theorem init_concentration_scaling (prior : Distribution) (x_o t : Tensor)
    (T n : nat) (rest : list nat) :
  Torch.size0 x_o = Ok T -> shape t = n :: rest ->
  (n <> T -> __init__ prior x_o (Tens t) = Raise (AssertionError "")) /\
  (n = T -> 1 <= T ->
   exists t',
     __init__ prior x_o (Tens t) = Ok (mkPotential prior x_o (Tens t')) /\
     shape t' = [1; T; Torch.numel rest] /\
     (rest = [] ->
      shape t' = [1; T; 1] /\ forall i, i < T -> get t' [0; i; 0] = get t [i])).
Proof.
  intros Hx Ht. unfold __init__. rewrite Hx. cbn [rbind].
  unfold Torch.size0. rewrite Ht. cbn [rbind]. split.
  - intros Hne. apply Nat.eqb_neq in Hne. rewrite Hne. reflexivity.
  - intros -> HT. rewrite Nat.eqb_refl. cbn [py_assert rbind].
    rewrite (reshape_infer_ok t [1; T] (Torch.numel rest)).
    + cbn [rbind app]. eexists. split; [reflexivity |].
      split; [reflexivity |]. intros ->. split; [reflexivity |].
      intros i Hi. unfold Torch.view. cbn [get shape]. rewrite Ht. simpl.
      replace (i * 1 + 0) with i by lia. now rewrite Nat.div_1_r.
    + rewrite Ht. simpl. lia.
    + simpl. lia.
Qed.

Lemma init_concentration_scaling_witness :
  (3 <> 3 ->
   __init__ Examples.unit_box Examples.x_three_trials (Tens Examples.scaling_3)
   = Raise (AssertionError "")) /\
  (3 = 3 -> 1 <= 3 ->
   exists t',
     __init__ Examples.unit_box Examples.x_three_trials (Tens Examples.scaling_3)
     = Ok (mkPotential Examples.unit_box Examples.x_three_trials (Tens t')) /\
     shape t' = [1; 3; Torch.numel []] /\
     (@nil nat = [] ->
      shape t' = [1; 3; 1] /\
      forall i, i < 3 -> get t' [0; i; 0] = get Examples.scaling_3 [i])).
Proof.
  apply (init_concentration_scaling Examples.unit_box Examples.x_three_trials
           Examples.scaling_3 3 3 []).
  - reflexivity.
  - reflexivity.
Defined.

(** C7 fails as stated: a concentration-scaling tensor of shape [(3, 2)]
    for three observed trials passes the assertion and is reshaped to
    [(1, 3, 2)], not to [(1, 3, 1)]. *)
Lemma init_scaling_two_per_trial :
  Torch.size0 Examples.scaling_3x2 = Torch.size0 Examples.x_three_trials /\
  exists t',
    __init__ Examples.unit_box Examples.x_three_trials (Tens Examples.scaling_3x2)
    = Ok (mkPotential Examples.unit_box Examples.x_three_trials (Tens t')) /\
    shape t' = [1; 3; 2] /\
    shape t' <> [1; 3; 1].
Proof.
  split; [reflexivity |]. eexists. split; [reflexivity |].
  split; [reflexivity | discriminate].
Qed.

(** A length that differs from the number of trials is refused. *)
Example init_scaling_wrong_length :
  __init__ Examples.unit_box Examples.x_three_trials (Tens Examples.scaling_2)
  = Raise (AssertionError "").
Proof. reflexivity. Qed.

Section GradientTracking.
Context `{TorchDistributions} `{TorchUtils}.

(** C9: for every batch and every gradient mode in force,
    [track_gradients=False] and [track_gradients=True] give the same
    outcome, the same tensor or the same exception; the flag only selects
    the gradient mode under which the likelihood is evaluated, and the mode
    in force before the call is in force after it. *)
Theorem call_value_independent_of_tracking (self : BinomialGammaPotential)
    (theta : Tracked) (mode : bool) :
  same_value (fst (__call__ self theta false mode))
             (fst (__call__ self theta true mode)) /\
  snd (__call__ self theta false mode) = mode /\
  snd (__call__ self theta true mode) = mode.
Proof.
  unfold __call__, gbind, with_grad_enabled, op. cbn [fst snd value has_graph].
  destruct (iid_likelihood self (atleast_2d (value theta))) as [ll | e];
    cbn [rbind fst snd value].
  - destruct (Torch.add ll (log_prob (prior self) (atleast_2d (value theta))))
      as [out | e]; cbn [rbind fst snd same_value value]; auto.
  - cbn [same_value]. auto.
Qed.

End GradientTracking.

End Potential_Facts.

(** * Further properties of [_log_prob_proposal_posterior] *)

Module NPE_B_More.
Import NPE_B NPE_B_Facts.

Local Open Scope npe_scope.

#[local] Hint Unfold bind ret lift call assert_all_finite : npe.

(** The densities of a non-empty history sum to a positive number. *)
Lemma density_sum_pos (history : list Distribution) (theta : Tensor) (b : nat) :
  history <> [] -> (0 < density_sum history theta b)%R.
Proof.
  unfold density_sum. intros Hne.
  assert (Hnonneg : forall l : list Distribution,
            (0 <= fold_right Rplus 0
                    (map (fun density =>
                            Rtrigo_def.exp (real_of (get (log_prob density theta) [b])))
                         l))%R).
  { induction l as [| d l IH]; simpl; [lra |].
    pose proof (exp_pos (real_of (get (log_prob d theta) [b]))). lra. }
  destruct history as [| d rest]; [congruence |]. simpl.
  pose proof (exp_pos (real_of (get (log_prob d theta) [b]))).
  pose proof (Hnonneg rest). lra.
Qed.

(** The weights of a non-empty finite history, as real numbers. *)
Lemma importance_weights_real (self : NPE_B) (theta : Tensor) (n : nat)
    (tr : list event) :
  Torch.size0 theta = Ok n ->
  shape (log_prob (_prior self) theta) = [n] ->
  Torch.isfinite_all (log_prob (_prior self) theta) = true ->
  finite_history (_proposal_roundwise self) theta n ->
  _proposal_roundwise self <> [] ->
  exists out,
    importance_weights self theta tr
      = (Ok out, tr ++ [PriorLogProb; PriorLogProb]
                    ++ loop_events 0 (length (_proposal_roundwise self))) /\
    shape out = [n] /\
    forall b, b < n ->
      get out [b]
      = Fin (INR (_round self + 1)
             * Rtrigo_def.exp (real_of (get (log_prob (_prior self) theta) [b]))
             / density_sum (_proposal_roundwise self) theta b).
Proof.
  intros Hsize Hshape Hall Hfin Hne.
  destruct (importance_weights_finite self theta n tr Hsize Hshape Hall Hfin)
    as (out & Hrun & Hout_shape & Hget).
  exists out. split; [exact Hrun |]. split; [assumption |].
  intros b Hb. rewrite (Hget b Hb).
  rewrite (spec_mixture_density_real self theta n b Hfin Hb).
  rewrite (isfinite_all_get1 _ _ _ Hall Hshape Hb) at 1. simpl sexp.
  pose proof (density_sum_pos _ theta b Hne) as Hsum.
  pose proof (INR_succ_pos (_round self)) as Hr.
  rewrite sdiv_pos by (apply Rdiv_lt_0_compat; lra).
  apply (f_equal Fin). field. lra.
Qed.

(** A history of copies of the prior. *)
Lemma density_sum_copies (history : list Distribution) (prior : Distribution)
    (theta : Tensor) (b : nat) :
  Forall (fun density => log_prob density theta = log_prob prior theta) history ->
  density_sum history theta b
  = (INR (length history)
     * Rtrigo_def.exp (real_of (get (log_prob prior theta) [b])))%R.
Proof.
  unfold density_sum. induction 1 as [| d l Hd Hl IH].
  - simpl. lra.
  - cbn [map fold_right length]. rewrite IH, Hd, S_INR. lra.
Qed.

(** Multiplying by one on the left changes no element. *)
Lemma smul_1_l (a : scalar) : smul (Fin 1) a = a.
Proof.
  destruct a as [x | | |]; simpl; try reflexivity.
  - f_equal. lra.
  - unfold inf_times. now rewrite (sign_pos 1 Rlt_0_1).
  - unfold inf_times. now rewrite (sign_pos 1 Rlt_0_1).
Qed.

(** In exact arithmetic, where the exponential of a finite log-density is
    positive: when every one of the [round_index + 1] history entries has
    the prior's log-density (all the training data were drawn from the
    prior), the importance weights are all 1 and the function returns the
    estimator's log-probability unchanged, in the estimator's own shape,
    [(n,)] or [(1, n)]. *)
Theorem prior_only_history_is_unweighted
    (self : NPE_B) (theta x masks : Tensor) (proposal : option Distribution)
    (n : nat) (tr : list event) :
  Torch.size0 theta = Ok n ->
  shape (log_prob (_prior self) theta) = [n] ->
  Torch.isfinite_all (log_prob (_prior self) theta) = true ->
  Forall (fun density => log_prob density theta = log_prob (_prior self) theta)
         (_proposal_roundwise self) ->
  length (_proposal_roundwise self) = _round self + 1 ->
  let nn := net_log_prob (_neural_net self) (Torch.unsqueeze0 theta) x in
  exists weights tr',
    importance_weights self theta tr = (Ok weights, tr') /\
    shape weights = [n] /\
    (forall b, b < n -> get weights [b] = Fin 1) /\
    _log_prob_proposal_posterior self theta x masks proposal tr
    = (Torch.mul weights nn, tr' ++ [NetLogProb]) /\
    (shape nn = [n] ->
     exists out,
       Torch.mul weights nn = Ok out /\ shape out = [n] /\
       forall b, b < n -> get out [b] = get nn [b]) /\
    (shape nn = [1; n] ->
     exists out,
       Torch.mul weights nn = Ok out /\ shape out = [1; n] /\
       forall b, b < n -> get out [0; b] = get nn [0; b]).
Proof.
  intros Hsize Hshape Hall Hcopies Hlen nn.
  assert (Hfin : finite_history (_proposal_roundwise self) theta n).
  { unfold finite_history. apply Forall_impl with (2 := Hcopies).
    intros d Hd. rewrite Hd. auto. }
  assert (Hne : _proposal_roundwise self <> []).
  { intros Hnil. rewrite Hnil in Hlen. simpl in Hlen. lia. }
  destruct (importance_weights_real self theta n tr Hsize Hshape Hall Hfin Hne)
    as (w & Hw & Hw_shape & Hw_get).
  assert (Hone : forall b, b < n -> get w [b] = Fin 1).
  { intros b Hb. rewrite (Hw_get b Hb).
    rewrite (density_sum_copies _ _ theta b Hcopies), Hlen.
    pose proof (INR_succ_pos (_round self)).
    pose proof (exp_pos (real_of (get (log_prob (_prior self) theta) [b]))).
    apply (f_equal Fin). field. lra. }
  exists w. eexists. split; [exact Hw |]. split; [assumption |].
  split; [exact Hone |].
  split; [exact (posterior_after_weights self theta x masks proposal tr _ w Hw) |].
  split; intros Hnn.
  - destruct (broadcast2_same1 smul w nn n Hw_shape Hnn)
      as (out & Hmul & Hout_shape & Hout_get).
    exists out. split; [exact Hmul |]. split; [assumption |].
    intros b Hb. rewrite (Hout_get b Hb), (Hone b Hb). apply smul_1_l.
  - destruct (mul_sample_axis w nn n Hw_shape Hnn)
      as (out & Hmul & Hout_shape & Hout_get).
    exists out. split; [exact Hmul |]. split; [assumption |].
    intros b Hb. rewrite (Hout_get b Hb), (Hone b Hb). apply smul_1_l.
Qed.

Lemma prior_only_history_is_unweighted_witness :
  let nn := net_log_prob MoreExamples.sample_axis_net
              (Torch.unsqueeze0 Examples.theta2) Examples.x2 in
  exists weights tr',
    importance_weights MoreExamples.trainer_two_priors_sample_axis
      Examples.theta2 [] = (Ok weights, tr') /\
    shape weights = [2] /\
    (forall b, b < 2 -> get weights [b] = Fin 1) /\
    _log_prob_proposal_posterior MoreExamples.trainer_two_priors_sample_axis
      Examples.theta2 Examples.x2 Examples.x2 None []
    = (Torch.mul weights nn, tr' ++ [NetLogProb]) /\
    (shape nn = [2] ->
     exists out,
       Torch.mul weights nn = Ok out /\ shape out = [2] /\
       forall b, b < 2 -> get out [b] = get nn [b]) /\
    (shape nn = [1; 2] ->
     exists out,
       Torch.mul weights nn = Ok out /\ shape out = [1; 2] /\
       forall b, b < 2 -> get out [0; b] = get nn [0; b]).
Proof.
  apply (prior_only_history_is_unweighted
           MoreExamples.trainer_two_priors_sample_axis
           Examples.theta2 Examples.x2 Examples.x2 None 2 []).
  - reflexivity.
  - reflexivity.
  - reflexivity.
  - repeat constructor.
  - reflexivity.
Defined.

(** The events of the loop, entry by entry. *)
Lemma loop_events_flat_map (k i : nat) :
  loop_events i k
  = flat_map (fun j => [ProposalLogProb j; ProposalLogProb j]) (seq i k).
Proof.
  revert i. induction k as [| k IH]; intros i; simpl; [reflexivity |].
  now rewrite IH.
Qed.

(** On finite inputs the function evaluates the prior's log-density twice,
    then the log-density of every history entry twice, in the order of the
    history, and the density estimator once, last: [2 R + 3] evaluations
    for a history of [R] entries, whatever the estimator returns. *)
Theorem posterior_call_order
    (self : NPE_B) (theta x masks : Tensor) (proposal : option Distribution)
    (n : nat) (tr : list event) :
  Torch.size0 theta = Ok n ->
  shape (log_prob (_prior self) theta) = [n] ->
  Torch.isfinite_all (log_prob (_prior self) theta) = true ->
  finite_history (_proposal_roundwise self) theta n ->
  let R := length (_proposal_roundwise self) in
  let tr' := snd (_log_prob_proposal_posterior self theta x masks proposal tr) in
  tr' = tr ++ [PriorLogProb; PriorLogProb]
           ++ flat_map (fun j => [ProposalLogProb j; ProposalLogProb j]) (seq 0 R)
           ++ [NetLogProb] /\
  length tr' = length tr + (2 * R + 3).
Proof.
  intros Hsize Hshape Hall Hfin R tr'.
  destruct (importance_weights_finite self theta n tr Hsize Hshape Hall Hfin)
    as (w & Hw & _).
  assert (Htr : tr' = tr ++ [PriorLogProb; PriorLogProb]
                         ++ flat_map (fun j => [ProposalLogProb j; ProposalLogProb j])
                              (seq 0 R)
                         ++ [NetLogProb]).
  { subst tr'.
    rewrite (posterior_after_weights self theta x masks proposal tr _ w Hw).
    cbn [snd]. rewrite loop_events_flat_map. rewrite <- !app_assoc.
    reflexivity. }
  split; [exact Htr |]. rewrite Htr. rewrite !length_app.
  rewrite (flat_map_constant_length (c := 2)) by reflexivity.
  rewrite length_seq. simpl. lia.
Qed.

Lemma posterior_call_order_witness :
  let R := length [Examples.unit_box] in
  let tr' := snd (_log_prob_proposal_posterior MoreExamples.trainer_sample_axis
                    Examples.theta2 Examples.x2 Examples.x2 None []) in
  tr' = [] ++ [PriorLogProb; PriorLogProb]
           ++ flat_map (fun j => [ProposalLogProb j; ProposalLogProb j]) (seq 0 R)
           ++ [NetLogProb] /\
  length tr' = length (@nil event) + (2 * R + 3).
Proof.
  apply (posterior_call_order MoreExamples.trainer_sample_axis Examples.theta2
           Examples.x2 Examples.x2 None 2 []).
  - reflexivity.
  - reflexivity.
  - reflexivity.
  - repeat constructor.
Defined.

(** The loop over a history in two parts. *)
Lemma accumulate_app (p : scalar) (theta : Tensor) (l1 l2 : list Distribution) :
  forall (i : nat) (proposal : Tensor) (tr : list event),
    accumulate p theta (l1 ++ l2) i proposal tr
    = match accumulate p theta l1 i proposal tr with
      | (Ok proposal', tr') => accumulate p theta l2 (i + length l1) proposal' tr'
      | (Raise e, tr') => (Raise e, tr')
      end.
Proof.
  induction l1 as [| d l1 IH]; intros i proposal tr.
  - simpl. unfold ret. now rewrite Nat.add_0_r.
  - cbn [app accumulate length]. autounfold with npe.
    destruct (Torch.isfinite_all (log_prob d theta)); cbn [py_assert];
      [| reflexivity].
    destruct (Torch.iadd proposal (Torch.scale p (Torch.exp (log_prob d theta))))
      as [acc | e]; [| reflexivity].
    rewrite IH. now replace (i + S (length l1)) with (S i + length l1) by lia.
Qed.

(** A vector of [n >= 2] elements does not take a column of [n] elements
    in place. *)
Lemma iadd_column_raises (a b : Tensor) (n : nat) :
  shape a = [n] -> shape b = [n; 1] -> 2 <= n ->
  Torch.iadd a b
  = Raise (RuntimeError "output with shape doesn't match the broadcast shape").
Proof.
  intros Ha Hb Hn. unfold Torch.iadd. rewrite Ha, Hb.
  unfold Torch.broadcast_shapes. cbn [rev app Torch.broadcast_rev].
  destruct (n =? 1) eqn:E; [apply Nat.eqb_eq in E; lia |].
  cbn [Nat.eqb option_map rev app].
  destruct (list_eq_dec Nat.eq_dec [n; n] [n]) as [Heq | _]; [discriminate |].
  reflexivity.
Qed.

(** A history entry whose log-density comes as a column of shape
    [(batch_size, 1)], for a batch of at least two samples, is not broadcast
    silently: the in-place accumulation raises, after the entries before it
    have been accumulated and before the density estimator is evaluated. *)
Theorem column_shaped_proposal_raises
    (self : NPE_B) (theta x masks : Tensor) (proposal : option Distribution)
    (n : nat) (tr : list event)
    (before after : list Distribution) (density : Distribution) :
  Torch.size0 theta = Ok n -> 2 <= n ->
  Torch.isfinite_all (log_prob (_prior self) theta) = true ->
  _proposal_roundwise self = before ++ density :: after ->
  finite_history before theta n ->
  shape (log_prob density theta) = [n; 1] ->
  Torch.isfinite_all (log_prob density theta) = true ->
  _log_prob_proposal_posterior self theta x masks proposal tr
  = (Raise (RuntimeError "output with shape doesn't match the broadcast shape"),
     tr ++ [PriorLogProb; PriorLogProb] ++ loop_events 0 (length before)
        ++ [ProposalLogProb (length before); ProposalLogProb (length before)]).
Proof.
  intros Hsize Hn Hprior Hhistory Hbefore Hshape Hfinite.
  unfold _log_prob_proposal_posterior, importance_weights, mixture_proposal.
  autounfold with npe. rewrite Hprior. cbn [py_assert]. rewrite Hsize, Hhistory.
  rewrite accumulate_app.
  destruct (accumulate_finite (prop self) theta n before Hbefore 0
              (Torch.zeros [n]) ((tr ++ [PriorLogProb]) ++ [PriorLogProb])
              eq_refl) as (acc & -> & Hacc_shape & _).
  cbn [accumulate Nat.add]. autounfold with npe. rewrite Hfinite.
  cbn [py_assert].
  rewrite (iadd_column_raises acc
             (Torch.scale (prop self) (Torch.exp (log_prob density theta))) n
             Hacc_shape Hshape Hn).
  f_equal. rewrite <- !app_assoc. reflexivity.
Qed.

Lemma column_shaped_proposal_raises_witness :
  _log_prob_proposal_posterior MoreExamples.trainer_column_history
    Examples.theta2 Examples.x2 Examples.x2 None []
  = (Raise (RuntimeError "output with shape doesn't match the broadcast shape"),
     [] ++ [PriorLogProb; PriorLogProb] ++ loop_events 0 (length [Examples.unit_box])
        ++ [ProposalLogProb (length [Examples.unit_box]);
            ProposalLogProb (length [Examples.unit_box])]).
Proof.
  apply (column_shaped_proposal_raises MoreExamples.trainer_column_history
           Examples.theta2 Examples.x2 Examples.x2 None 2 []
           [Examples.unit_box] [] MoreExamples.column_box).
  - reflexivity.
  - lia.
  - reflexivity.
  - reflexivity.
  - repeat constructor.
  - reflexivity.
  - reflexivity.
Defined.

(** A prior whose log-density comes as a column of shape [(batch_size, 1)]
    is broadcast silently by the division: for a batch of [n >= 2] samples
    the importance weights form an [n] by [n] matrix whose element [(i, j)]
    is the prior density of sample [i] over the mixture proposal density of
    sample [j]. *)
Theorem column_shaped_prior_broadcasts (self : NPE_B) (theta : Tensor) (n : nat)
    (tr : list event) :
  Torch.size0 theta = Ok n -> 2 <= n ->
  shape (log_prob (_prior self) theta) = [n; 1] ->
  Torch.isfinite_all (log_prob (_prior self) theta) = true ->
  finite_history (_proposal_roundwise self) theta n ->
  exists out tr',
    importance_weights self theta tr = (Ok out, tr') /\
    shape out = [n; n] /\
    forall i j, i < n -> j < n ->
      get out [i; j]
      = sdiv (sexp (get (log_prob (_prior self) theta) [i; 0]))
             (spec_mixture_density self theta j).
Proof.
  intros Hsize Hn Hshape Hall Hfin.
  destruct (mixture_proposal_finite self theta n
              ((tr ++ [PriorLogProb]) ++ [PriorLogProb]) Hsize Hfin)
    as (mix & Hmix & Hmix_shape & Hmix_get).
  eexists. eexists. split; [| split].
  - unfold importance_weights. autounfold with npe. rewrite Hall.
    cbn [py_assert]. rewrite Hmix. unfold Torch.div, Torch.broadcast2.
    cbn [shape Torch.exp Torch.map_tensor]. rewrite Hshape, Hmix_shape.
    rewrite (Potential_Facts.broadcast_column_vector n Hn). reflexivity.
  - reflexivity.
  - intros i j Hi Hj. cbn [get Torch.exp Torch.map_tensor].
    unfold Torch.bindex. cbn [length Nat.sub skipn combine map fst snd].
    assert (E : (n =? 1) = false) by (apply Nat.eqb_neq; lia).
    rewrite E. cbn [Nat.eqb]. now rewrite (Hmix_get j Hj).
Qed.

Lemma column_shaped_prior_broadcasts_witness :
  exists out tr',
    importance_weights MoreExamples.trainer_column_prior Examples.theta2 []
      = (Ok out, tr') /\
    shape out = [2; 2] /\
    forall i j, i < 2 -> j < 2 ->
      get out [i; j]
      = sdiv (sexp (get (log_prob MoreExamples.column_box Examples.theta2) [i; 0]))
             (spec_mixture_density MoreExamples.trainer_column_prior
                Examples.theta2 j).
Proof.
  apply (column_shaped_prior_broadcasts MoreExamples.trainer_column_prior
           Examples.theta2 2 []).
  - reflexivity.
  - lia.
  - reflexivity.
  - reflexivity.
  - repeat constructor.
Defined.

(** A tensor without elements passes the finiteness check. *)
Lemma isfinite_all_empty (t : Tensor) :
  shape t = [0] -> Torch.isfinite_all t = true.
Proof. intros Hs. unfold Torch.isfinite_all. now rewrite Hs. Qed.

(** For a batch without samples no finiteness check fails and nothing is
    divided by zero, whatever the distributions compute and also with an
    empty history: the importance weights are the tensor without elements
    of shape [(0,)], and the function returns their product with the
    estimator's output, a tensor without elements, of shape [(0,)] when the
    estimator returns that shape and of shape [(1, 0)] when it keeps the
    sample axis. *)
Theorem empty_batch_returns_empty
    (self : NPE_B) (theta x masks : Tensor) (proposal : option Distribution)
    (tr : list event) :
  Torch.size0 theta = Ok 0 ->
  shape (log_prob (_prior self) theta) = [0] ->
  Forall (fun density => shape (log_prob density theta) = [0])
         (_proposal_roundwise self) ->
  let nn := net_log_prob (_neural_net self) (Torch.unsqueeze0 theta) x in
  exists weights tr',
    importance_weights self theta tr = (Ok weights, tr') /\
    shape weights = [0] /\
    _log_prob_proposal_posterior self theta x masks proposal tr
    = (Torch.mul weights nn, tr' ++ [NetLogProb]) /\
    (shape nn = [0] ->
     exists out, Torch.mul weights nn = Ok out /\ shape out = [0]) /\
    (shape nn = [1; 0] ->
     exists out, Torch.mul weights nn = Ok out /\ shape out = [1; 0]).
Proof.
  intros Hsize Hshape Hshapes nn.
  assert (Hfin : finite_history (_proposal_roundwise self) theta 0).
  { unfold finite_history. apply Forall_impl with (2 := Hshapes).
    intros d Hd. split; [assumption | now apply isfinite_all_empty]. }
  destruct (importance_weights_finite self theta 0 tr Hsize Hshape
              (isfinite_all_empty _ Hshape) Hfin) as (w & Hw & Hw_shape & _).
  exists w. eexists. split; [exact Hw |]. split; [assumption |].
  split; [exact (posterior_after_weights self theta x masks proposal tr _ w Hw) |].
  split; intros Hnn.
  - destruct (broadcast2_same1 smul w nn 0 Hw_shape Hnn)
      as (out & Hmul & Hout_shape & _).
    exists out. split; assumption.
  - destruct (mul_sample_axis w nn 0 Hw_shape Hnn)
      as (out & Hmul & Hout_shape & _).
    exists out. split; assumption.
Qed.

Lemma empty_batch_returns_empty_witness :
  let nn := net_log_prob MoreExamples.sample_axis_net
              (Torch.unsqueeze0 MoreExamples.empty_batch)
              MoreExamples.empty_batch in
  exists weights tr',
    importance_weights MoreExamples.trainer_all_broken_sample_axis
      MoreExamples.empty_batch [] = (Ok weights, tr') /\
    shape weights = [0] /\
    _log_prob_proposal_posterior MoreExamples.trainer_all_broken_sample_axis
      MoreExamples.empty_batch MoreExamples.empty_batch MoreExamples.empty_batch
      None []
    = (Torch.mul weights nn, tr' ++ [NetLogProb]) /\
    (shape nn = [0] ->
     exists out, Torch.mul weights nn = Ok out /\ shape out = [0]) /\
    (shape nn = [1; 0] ->
     exists out, Torch.mul weights nn = Ok out /\ shape out = [1; 0]).
Proof.
  apply (empty_batch_returns_empty MoreExamples.trainer_all_broken_sample_axis
           MoreExamples.empty_batch MoreExamples.empty_batch
           MoreExamples.empty_batch None []).
  - reflexivity.
  - reflexivity.
  - repeat constructor.
Defined.

End NPE_B_More.

(** * Further properties of [BinomialGammaPotential] *)

Module Potential_More.
Import Potential Potential_Facts PotentialSpec.

Local Open Scope result_scope.

#[local] Arguments Nat.div : simpl never.
#[local] Arguments Nat.modulo : simpl never.
#[local] Arguments Nat.eqb : simpl never.

#[local] Existing Instance Examples.closed_form.

(** Addition of elements is commutative and associative, with zero as
    neutral element, also on the non-finite values. *)
Lemma sadd_comm (a b : scalar) : sadd a b = sadd b a.
Proof. destruct a, b; simpl; try reflexivity. f_equal. lra. Qed.

Lemma sadd_assoc (a b c : scalar) : sadd (sadd a b) c = sadd a (sadd b c).
Proof. destruct a, b, c; simpl; try reflexivity. f_equal. lra. Qed.

Lemma sadd_0_l (a : scalar) : sadd (Fin 0) a = a.
Proof. destruct a; simpl; try reflexivity. f_equal. lra. Qed.

Lemma fold_sadd (l : list scalar) :
  forall a, fold_left sadd l a = sadd a (ssum l).
Proof.
  unfold ssum. induction l as [| x l IH]; intros a; cbn [fold_left].
  - destruct a; simpl; try reflexivity. f_equal. lra.
  - rewrite (IH (sadd a x)), (IH (sadd (Fin 0) x)), sadd_0_l.
    apply sadd_assoc.
Qed.

(** The sum of a sequence in two parts, and in another order. *)
Lemma ssum_app (l1 l2 : list scalar) : ssum (l1 ++ l2) = sadd (ssum l1) (ssum l2).
Proof. unfold ssum at 1. rewrite fold_left_app. apply fold_sadd. Qed.

Lemma ssum_perm (l l' : list scalar) : Permutation l l' -> ssum l = ssum l'.
Proof.
  unfold ssum. intros Hp. generalize (Fin 0).
  induction Hp as [| x l l' _ IH | x y l | l l' l'' _ IH1 _ IH2]; intros a;
    cbn [fold_left].
  - reflexivity.
  - apply IH.
  - f_equal. rewrite !sadd_assoc. f_equal. apply sadd_comm.
  - now rewrite IH1.
Qed.

(** A range of numbers as the shifted range from zero. *)
Lemma seq_shifted (start len : nat) :
  seq start len = map (fun t => start + t) (seq 0 len).
Proof.
  revert start. induction len as [| len IH]; intros start; simpl.
  - reflexivity.
  - f_equal; [lia |]. rewrite (IH (S start)), (IH 1), map_map.
    apply map_ext. intros t. lia.
Qed.

(** The first element that raises ends a comprehension. *)
Lemma comprehension_raises {A B : Type} (f : A -> result B)
    (before : list A) (x : A) (after : list A) (e : exn) :
  (forall y, In y before -> exists v, f y = Ok v) -> f x = Raise e ->
  comprehension f (before ++ x :: after) = Raise e.
Proof.
  intros Hbefore Hx. induction before as [| y before IH]; simpl.
  - now rewrite Hx.
  - destruct (Hbefore y (or_introl eq_refl)) as (v & ->). cbn [rbind].
    rewrite IH; [reflexivity |]. intros z Hz. apply Hbefore. now right.
Qed.

Section Evaluable.
Context `{TorchDistributions}.

(** On evaluable inputs the joint log-likelihood is the matrix of the
    joint values and the call returns their sums over the trials. *)
Lemma evaluable_value (self : BinomialGammaPotential) (theta : Tensor)
    (B T K C : nat) :
  evaluable self theta B T K C ->
  exists joint out,
    joint_likelihood self theta = Ok joint /\
    is2 joint B T (spec_joint self theta K) /\
    iid_likelihood self theta = Ok out /\
    shape out = [B] /\
    forall b, b < B -> get out [b] = spec_iid self theta K T b.
Proof.
  intros (Htheta & Hx & HC & HK & HB & HT & Hcase & Hscaling & Hfinite).
  destruct (joint_likelihood_ok self theta B T K C Htheta Hx HC HK HB HT Hcase
              Hscaling) as (joint & Hjoint & Hjoint_is).
  destruct (iid_likelihood_value self theta B T K C Htheta Hx HC HK HB HT Hcase
              Hscaling Hfinite) as (out & Hout & Hshape & Hget).
  exists joint, out. auto.
Qed.

(** For a batch of [1 + K] parameters per sample, [K >= 1], against
    [T >= 1] observed trials, with one sample or at least two trials,
    [iid_likelihood] returns one value per sample: the sum over the trials
    of the [K] binomial log-probabilities of the columns [1 .. K] plus the
    inverse-gamma log-density of column 0 with the rate at position 0,
    provided these joint values are finite. *)
Theorem iid_likelihood_sums_trials (self : BinomialGammaPotential)
    (theta : Tensor) (B T K C : nat) :
  evaluable self theta B T K C ->
  exists out,
    iid_likelihood self theta = Ok out /\
    shape out = [B] /\
    forall b, b < B ->
      get out [b]
      = ssum (map (fun t =>
                     sadd (ssum (map (fun k =>
                                        binomial_log_prob (get theta [b; 1 + k])
                                          (get (x_o self) [t; 1 + k]))
                                     (seq 0 K)))
                          (inverse_gamma_log_prob (concentration_at self t)
                             (get theta [b; 0]) (get (x_o self) [t; 0])))
                  (seq 0 T)).
Proof.
  intros Hev.
  destruct (evaluable_value self theta B T K C Hev)
    as (_ & out & _ & _ & Hout & Hshape & Hget).
  exists out. split; [assumption |]. split; [assumption |].
  intros b Hb. rewrite (Hget b Hb). reflexivity.
Qed.



(** A batch whose samples hold the rate alone, without a success
    probability, raises whatever the observations hold: there is no
    binomial term to stack. *)
Theorem rate_only_batch_raises (self : BinomialGammaPotential) (theta : Tensor)
    (B T : nat) (rest : list nat) :
  shape theta = [B; 1] -> shape (x_o self) = T :: rest -> 1 <= B ->
  joint_likelihood self theta
  = Raise (RuntimeError "stack expects a non-empty TensorList") /\
  iid_likelihood self theta
  = Raise (RuntimeError "stack expects a non-empty TensorList").
Proof.
  intros Htheta Hx HB.
  pose proof (no_component_raises self theta B T rest Htheta Hx HB) as Hraise.
  split; [| exact Hraise].
  unfold iid_likelihood in Hraise.
  destruct (joint_likelihood self theta) as [joint | e]; cbn [rbind] in Hraise.
  - unfold Torch.size0 in Hraise. rewrite Htheta, Hx in Hraise.
    cbn [rbind] in Hraise.
    destruct (shape_eqb (shape joint) [B; T]); cbn [py_assert rbind] in Hraise;
      [| discriminate].
    destruct (Torch.isfinite_all joint); cbn [py_assert rbind] in Hraise;
      [| discriminate].
    unfold Torch.sum in Hraise.
    destruct (nth_error (shape joint) 1); discriminate.
  - exact Hraise.
Qed.

(** An empty batch raises at the first reshape, whose inferred size is
    ambiguous. *)
Theorem empty_batch_raises (self : BinomialGammaPotential) (theta : Tensor)
    (T : nat) (rest rest' : list nat) :
  shape theta = 0 :: rest -> shape (x_o self) = T :: rest' ->
  iid_likelihood self theta
  = Raise (RuntimeError
             "cannot reshape: the unspecified dimension size -1 can be any value").
Proof.
  intros Htheta Hx.
  unfold iid_likelihood, joint_likelihood, Torch.size0. rewrite Htheta, Hx.
  reflexivity.
Qed.

(** The joint value reads the parameters of the sample, the columns
    [0 .. K] of the trial and the concentration of the trial, nothing
    else. *)
Lemma spec_joint_agree (self self' : BinomialGammaPotential)
    (theta theta' : Tensor) (K b b' t t' : nat) :
  (forall j, j <= K -> get theta' [b'; j] = get theta [b; j]) ->
  (forall c, c <= K -> get (x_o self') [t'; c] = get (x_o self) [t; c]) ->
  concentration_at self' t' = concentration_at self t ->
  spec_joint self' theta' K b' t' = spec_joint self theta K b t.
Proof.
  intros Htheta Hx Hconc. unfold spec_joint.
  rewrite Hconc, (Htheta 0), (Hx 0) by lia. f_equal. f_equal.
  apply map_ext_in. intros k Hk. apply in_seq in Hk.
  now rewrite (Htheta (1 + k)), (Hx (1 + k)) by lia.
Qed.

(** Observations that lack one of the [K] columns of counts raise an index
    error when the first missing column is read. *)
Theorem missing_count_column_raises (self : BinomialGammaPotential)
    (theta : Tensor) (B T K C : nat) :
  shape theta = [B; S K] -> shape (x_o self) = [T; C] -> C < S K ->
  1 <= K -> 1 <= B ->
  iid_likelihood self theta = Raise IndexError.
Proof.
  intros Htheta Hx HC HK HB.
  assert (Hxo : is2 (x_o self) T C (fun t c => get (x_o self) [t; c]))
    by (split; auto).
  unfold iid_likelihood, joint_likelihood, Torch.size0. rewrite Htheta, Hx.
  cbn [rbind].
  destruct (reshape_theta theta B (S K) Htheta HB) as (theta3 & -> & Htheta3).
  cbn [rbind].
  destruct (narrow_last theta3 B 1 (S K) 0 (Some 1) _ Htheta3) as (beta & -> & _).
  cbn [rbind].
  destruct (narrow_last theta3 B 1 (S K) 1 None _ Htheta3)
    as (rhos & -> & Hrhos0).
  assert (Hrhos : is3 rhos B 1 K (fun b _ k => get theta [b; 1 + k])).
  { apply (is3_ext _ _ _ _ _ _ _ Hrhos0); [simpl; lia |]. reflexivity. }
  clear Hrhos0. cbn [rbind]. rewrite (proj1 Hrhos). cbn [last].
  remember (C - 1) as k0 eqn:Hk0.
  assert (Hseq : seq 0 K = seq 0 k0 ++ k0 :: seq (S k0) (K - S k0)).
  { replace K with (k0 + S (K - S k0)) at 1 by lia. now rewrite seq_app. }
  rewrite Hseq.
  rewrite (comprehension_raises _ (seq 0 k0) k0 (seq (S k0) (K - S k0)) IndexError).
  - reflexivity.
  - intros k Hk. apply in_seq in Hk.
    destruct (select_last rhos B 1 K k _ Hrhos) as (p & -> & Hp); [lia |].
    destruct (select_column (x_o self) T C (1 + k) _ Hxo)
      as (v & -> & Hv_shape & Hv_get); [lia |].
    cbn [rbind].
    destruct (binomial_term p v B T _ (fun t => get (x_o self) [t; 1 + k])
                Hp Hv_shape Hv_get) as (y & Hy & _).
    exists y. exact Hy.
  - destruct (select_last rhos B 1 K k0 _ Hrhos) as (p & -> & _); [lia |].
    cbn [rbind]. unfold Torch.select. rewrite Hx. cbn [nth_error].
    assert (E : (1 + k0 <? C) = false) by (apply Nat.ltb_ge; lia).
    rewrite E. reflexivity.
Qed.

(** Without any observed trial the call raises at the reshape of the first
    observation column, whose inferred size is ambiguous; the
    log-likelihood of an empty dataset is not 0 but an error. *)
Theorem no_trial_raises (self : BinomialGammaPotential) (theta : Tensor)
    (B K C : nat) (c : scalar) :
  shape theta = [B; S K] -> shape (x_o self) = [0; C] -> S K <= C ->
  1 <= K -> 1 <= B -> concentration_scaling self = Float c ->
  iid_likelihood self theta
  = Raise (RuntimeError
             "cannot reshape: the unspecified dimension size -1 can be any value").
Proof.
  intros Htheta Hx HC HK HB Hfloat.
  assert (Hxo : is2 (x_o self) 0 C (fun t c => get (x_o self) [t; c]))
    by (split; auto).
  unfold iid_likelihood, joint_likelihood, Torch.size0. rewrite Htheta, Hx.
  cbn [rbind].
  destruct (reshape_theta theta B (S K) Htheta HB) as (theta3 & -> & Htheta3).
  cbn [rbind].
  destruct (narrow_last theta3 B 1 (S K) 0 (Some 1) _ Htheta3)
    as (beta & -> & Hbeta0).
  assert (Hbeta : shape beta = [B; 1; 1]).
  { rewrite (proj1 Hbeta0). reflexivity. }
  clear Hbeta0. cbn [rbind].
  destruct (narrow_last theta3 B 1 (S K) 1 None _ Htheta3)
    as (rhos & -> & Hrhos0).
  assert (Hrhos : is3 rhos B 1 K (fun b _ k => get theta [b; 1 + k])).
  { apply (is3_ext _ _ _ _ _ _ _ Hrhos0); [simpl; lia |]. reflexivity. }
  clear Hrhos0. cbn [rbind]. rewrite (proj1 Hrhos). cbn [last].
  destruct (comprehension_ok
              (fun rho_idx =>
                 p <- Torch.select 2 rho_idx rhos ;;
                 v <- Torch.select 1 (1 + rho_idx) (x_o self) ;;
                 Binomial_log_prob (mkBinomial p) v)
              (fun k y =>
                 is2 y B 0 (fun b t => binomial_log_prob (get theta [b; 1 + k])
                                         (get (x_o self) [t; 1 + k])))
              (seq 0 K))
    as (terms & -> & Hterms).
  { intros k Hk. apply in_seq in Hk.
    destruct (select_last rhos B 1 K k _ Hrhos) as (p & -> & Hp); [lia |].
    destruct (select_column (x_o self) 0 C (1 + k) _ Hxo)
      as (v & -> & Hv_shape & Hv_get); [lia |].
    cbn [rbind].
    destruct (binomial_term p v B 0 _ (fun t => get (x_o self) [t; 1 + k])
                Hp Hv_shape Hv_get) as (y & Hy & Hy_is).
    exists y. split; assumption. }
  cbn [rbind].
  destruct (Forall2_seq_nth _ terms beta 0 K Hterms) as [Hlen Hnth].
  destruct (stack_matrices terms K B 0
              (fun k b t => binomial_log_prob (get theta [b; 1 + k])
                              (get (x_o self) [t; 1 + k]))
              beta HK Hlen Hnth) as (stacked & -> & Hstacked).
  cbn [rbind].
  destruct (transpose_01 stacked K B 0 _ Hstacked) as (stacked' & -> & Hstacked').
  cbn [rbind].
  destruct (transpose_12 stacked' B K 0 _ Hstacked') as (choices & -> & _).
  cbn [rbind].
  unfold scaled_ones. rewrite Hfloat. cbn [rbind].
  unfold new_InverseGamma. cbn [shape Torch.scale Torch.map_tensor
                                  Torch.ones_like Torch.full].
  rewrite Hbeta, (broadcast_same3 B 1). cbn [rbind].
  destruct (narrow_columns (x_o self) 0 C 0 (Some 1) _ Hxo)
    as (rts & -> & [Hrts _]).
  cbn [rbind]. unfold Torch.reshape_infer. reflexivity.
Qed.

(** The log-likelihood does not depend on the order of the observed
    trials (float concentration scaling): the trials are exchangeable. *)
Theorem trial_order_irrelevant (self : BinomialGammaPotential)
    (theta x' : Tensor) (B T K C : nat) (sigma : nat -> nat) (c : scalar) :
  evaluable self theta B T K C ->
  concentration_scaling self = Float c ->
  reordered_trials T C sigma (x_o self) x' ->
  exists out out',
    iid_likelihood self theta = Ok out /\
    iid_likelihood (with_x_o self x') theta = Ok out' /\
    shape out' = shape out /\
    forall b, b < B -> get out' [b] = get out [b].
Proof.
  intros Hev Hfloat (_ & Hx' & Hperm & Hrows).
  pose proof Hev as (Htheta & Hx & HC & HK & HB & HT & Hcase & Hscaling & Hfinite).
  assert (Hsigma : forall t, t < T -> sigma t < T).
  { intros t Ht. apply in_seq with (start := 0). simpl.
    apply (Permutation_in _ Hperm). apply in_map. apply in_seq. lia. }
  assert (Hjoint : forall b t, t < T ->
            spec_joint (with_x_o self x') theta K b t
            = spec_joint self theta K b (sigma t)).
  { intros b t Ht. apply spec_joint_agree.
    - reflexivity.
    - intros col Hcol. cbn [with_x_o x_o]. apply Hrows; lia.
    - unfold concentration_at. simpl.
      now rewrite Hfloat. }
  assert (Hev' : evaluable (with_x_o self x') theta B T K C).
  { repeat split; try assumption.
    intros b t Hb Ht. rewrite (Hjoint b t Ht). apply Hfinite; auto. }
  destruct (evaluable_value self theta B T K C Hev)
    as (_ & out & _ & _ & Hout & Hshape & Hget).
  destruct (evaluable_value (with_x_o self x') theta B T K C Hev')
    as (_ & out' & _ & _ & Hout' & Hshape' & Hget').
  exists out, out'. split; [assumption |]. split; [assumption |].
  split; [congruence |].
  intros b Hb. rewrite (Hget b Hb), (Hget' b Hb). unfold spec_iid.
  rewrite <- (ssum_perm _ _ (Permutation_map (spec_joint self theta K b) Hperm)).
  rewrite map_map. f_equal. apply map_ext_in.
  intros t Ht. apply in_seq in Ht. apply Hjoint. lia.
Qed.

(** The log-likelihood of two sets of trials observed together is the sum
    of their log-likelihoods (float concentration scaling). *)
Theorem trial_sets_add_up (self : BinomialGammaPotential)
    (theta x1 x2 x12 : Tensor) (B T1 T2 K C : nat) (c : scalar) :
  concentration_scaling self = Float c ->
  concatenated_trials T1 T2 C x1 x2 x12 ->
  evaluable (with_x_o self x1) theta B T1 K C ->
  evaluable (with_x_o self x2) theta B T2 K C ->
  exists out1 out2 out12,
    iid_likelihood (with_x_o self x1) theta = Ok out1 /\
    iid_likelihood (with_x_o self x2) theta = Ok out2 /\
    iid_likelihood (with_x_o self x12) theta = Ok out12 /\
    forall b, b < B -> get out12 [b] = sadd (get out1 [b]) (get out2 [b]).
Proof.
  intros Hfloat (_ & _ & Hx12 & Hfirst & Hsecond) Hev1 Hev2.
  pose proof Hev1 as (Htheta & _ & HC & HK & HB & HT1 & Hcase1 & _ & Hfinite1).
  pose proof Hev2 as (_ & _ & _ & _ & _ & HT2 & _ & _ & Hfinite2).
  assert (Hconc : forall x x' t t',
            concentration_at (with_x_o self x) t
            = concentration_at (with_x_o self x') t').
  { intros. unfold concentration_at. simpl.
    now rewrite Hfloat. }
  assert (Hj1 : forall b t, t < T1 ->
            spec_joint (with_x_o self x12) theta K b t
            = spec_joint (with_x_o self x1) theta K b t).
  { intros b t Ht. apply spec_joint_agree; [reflexivity | | apply Hconc].
    intros col Hcol. cbn [with_x_o x_o]. apply Hfirst; lia. }
  assert (Hj2 : forall b t, t < T2 ->
            spec_joint (with_x_o self x12) theta K b (T1 + t)
            = spec_joint (with_x_o self x2) theta K b t).
  { intros b t Ht. apply spec_joint_agree; [reflexivity | | apply Hconc].
    intros col Hcol. cbn [with_x_o x_o]. apply Hsecond; lia. }
  assert (Hev12 : evaluable (with_x_o self x12) theta B (T1 + T2) K C).
  { repeat split; try assumption; try lia.
    - unfold per_trial_scaling. simpl.
      now rewrite Hfloat.
    - intros b t Hb Ht. destruct (Nat.lt_ge_cases t T1) as [Hlt | Hge].
      + rewrite (Hj1 b t Hlt). now apply Hfinite1.
      + replace t with (T1 + (t - T1)) by lia. rewrite Hj2 by lia.
        apply Hfinite2; lia. }
  destruct (evaluable_value _ theta B T1 K C Hev1)
    as (_ & out1 & _ & _ & Hout1 & _ & Hget1).
  destruct (evaluable_value _ theta B T2 K C Hev2)
    as (_ & out2 & _ & _ & Hout2 & _ & Hget2).
  destruct (evaluable_value _ theta B (T1 + T2) K C Hev12)
    as (_ & out12 & _ & _ & Hout12 & _ & Hget12).
  exists out1, out2, out12. repeat (split; [assumption |]).
  intros b Hb. rewrite (Hget1 b Hb), (Hget2 b Hb), (Hget12 b Hb).
  unfold spec_iid. rewrite seq_app, map_app, ssum_app. f_equal.
  - f_equal. apply map_ext_in. intros t Ht. apply in_seq in Ht. apply Hj1. lia.
  - f_equal. cbn [Nat.add]. rewrite (seq_shifted T1 T2), map_map.
    apply map_ext_in. intros t Ht. apply in_seq in Ht. apply Hj2. lia.
Qed.

(** The value of a sample in a batch is the value of the sample evaluated
    alone: samples of a batch do not influence each other. *)
Theorem batch_is_per_sample (self : BinomialGammaPotential)
    (theta theta_b : Tensor) (B T K C b : nat) :
  evaluable self theta B T K C -> b < B ->
  shape theta_b = [1; S K] ->
  (forall j, j <= K -> get theta_b [0; j] = get theta [b; j]) ->
  exists out out_b,
    iid_likelihood self theta = Ok out /\
    iid_likelihood self theta_b = Ok out_b /\
    shape out_b = [1] /\
    get out_b [0] = get out [b].
Proof.
  intros Hev Hb Hshape Hrow.
  pose proof Hev as (Htheta & Hx & HC & HK & HB & HT & Hcase & Hscaling & Hfinite).
  assert (Hjoint : forall t,
            spec_joint self theta_b K 0 t = spec_joint self theta K b t).
  { intros t. apply spec_joint_agree; auto. }
  assert (Hev_b : evaluable self theta_b 1 T K C).
  { repeat split; try assumption; try lia.
    intros b' t Hb' Ht. assert (b' = 0) by lia. subst b'.
    rewrite Hjoint. now apply Hfinite. }
  destruct (evaluable_value self theta B T K C Hev)
    as (_ & out & _ & _ & Hout & _ & Hget).
  destruct (evaluable_value self theta_b 1 T K C Hev_b)
    as (_ & out_b & _ & _ & Hout_b & Hshape_b & Hget_b).
  exists out, out_b. repeat (split; [assumption |]).
  rewrite (Hget b Hb), (Hget_b 0) by lia. unfold spec_iid. f_equal.
  apply map_ext. exact Hjoint.
Qed.

(** Observation columns beyond the [K] counts are never read: two datasets
    that agree on the columns [0 .. K] give the same log-likelihood, so a
    dataset with more columns than the parameters account for raises
    nothing. *)
Theorem further_columns_ignored (self : BinomialGammaPotential)
    (theta x' : Tensor) (B T K C C' : nat) :
  evaluable self theta B T K C ->
  shape x' = [T; C'] -> S K <= C' ->
  (forall t col, t < T -> col <= K -> get x' [t; col] = get (x_o self) [t; col]) ->
  exists out out',
    iid_likelihood self theta = Ok out /\
    iid_likelihood (with_x_o self x') theta = Ok out' /\
    shape out' = shape out /\
    forall b, b < B -> get out' [b] = get out [b].
Proof.
  intros Hev Hx' HC' Hcols.
  pose proof Hev as (Htheta & Hx & HC & HK & HB & HT & Hcase & Hscaling & Hfinite).
  assert (Hjoint : forall b t, t < T ->
            spec_joint (with_x_o self x') theta K b t
            = spec_joint self theta K b t).
  { intros b t Ht. apply spec_joint_agree; [reflexivity | | reflexivity].
    intros col Hcol. cbn [with_x_o x_o]. now apply Hcols. }
  assert (Hev' : evaluable (with_x_o self x') theta B T K C').
  { repeat split; try assumption.
    intros b t Hb Ht. rewrite (Hjoint b t Ht). now apply Hfinite. }
  destruct (evaluable_value self theta B T K C Hev)
    as (_ & out & _ & _ & Hout & Hshape & Hget).
  destruct (evaluable_value (with_x_o self x') theta B T K C' Hev')
    as (_ & out' & _ & _ & Hout' & Hshape' & Hget').
  exists out, out'. split; [assumption |]. split; [assumption |].
  split; [congruence |].
  intros b Hb. rewrite (Hget b Hb), (Hget' b Hb). unfold spec_iid. f_equal.
  apply map_ext_in. intros t Ht. apply in_seq in Ht. apply Hjoint. lia.
Qed.

(** A concentration scaling given as a tensor without dimensions (a scalar
    tensor) is not treated like a float: the constructor raises an index
    error when it reads the first size; so does an observation tensor
    without dimensions. *)
Theorem init_scalar_tensor_raises (prior : Distribution) (x_o t : Tensor) :
  shape x_o = [] \/ shape t = [] ->
  __init__ prior x_o (Tens t) = Raise IndexError.
Proof.
  intros Hscalar. unfold __init__, Torch.size0.
  destruct (shape x_o) as [| T rest]; [reflexivity |].
  destruct Hscalar as [Hx | Ht]; [discriminate |]. rewrite Ht. reflexivity.
Qed.

(** The potential that the constructor builds from one concentration per
    trial evaluates every trial with its own concentration: the
    constructor's layout [(1, num_trials, 1)] lines the concentrations up
    with the trials. *)
Theorem per_trial_concentrations_line_up (prior : Distribution)
    (x theta cs : Tensor) (B T K C : nat) :
  shape cs = [T] -> shape x = [T; C] -> shape theta = [B; S K] ->
  S K <= C -> 1 <= K -> 1 <= B -> 1 <= T -> B = 1 \/ 2 <= T ->
  (forall b t, b < B -> t < T ->
     isfinite (joint_value x (fun t => get cs [t]) theta K b t) = true) ->
  exists self out,
    __init__ prior x (Tens cs) = Ok self /\
    iid_likelihood self theta = Ok out /\
    shape out = [B] /\
    forall b, b < B ->
      get out [b] = iid_value x (fun t => get cs [t]) theta K T b.
Proof.
  intros Hcs Hx Htheta HC HK HB HT Hcase Hfinite.
  set (self := mkPotential prior x (Tens (Torch.view cs [1; T; 1]))).
  assert (Hinit : __init__ prior x (Tens cs) = Ok self).
  { unfold __init__, Torch.size0. rewrite Hx, Hcs. cbn [rbind].
    rewrite Nat.eqb_refl. cbn [py_assert rbind].
    rewrite (reshape_infer_ok cs [1; T] 1); [reflexivity | |].
    - rewrite Hcs. simpl. lia.
    - simpl. lia. }
  assert (Hconc : forall t, concentration_at self t = get cs [t]).
  { intros t. unfold concentration_at, self. cbn [concentration_scaling].
    unfold Torch.view. cbn [get shape]. rewrite Hcs. simpl.
    replace (t * 1 + 0) with t by lia. now rewrite Nat.div_1_r. }
  assert (Hjoint : forall b t,
            spec_joint self theta K b t
            = joint_value x (fun t => get cs [t]) theta K b t).
  { intros b t. unfold spec_joint, joint_value. now rewrite Hconc. }
  assert (Hev : evaluable self theta B T K C).
  { repeat split; try assumption.
    intros b t Hb Ht. rewrite Hjoint. now apply Hfinite. }
  destruct (evaluable_value self theta B T K C Hev)
    as (_ & out & _ & _ & Hout & Hshape & Hget).
  exists self, out. repeat (split; [assumption |]).
  intros b Hb. rewrite (Hget b Hb). unfold spec_iid, iid_value. f_equal.
  apply map_ext. apply Hjoint.
Qed.

Section Call.
Context `{TorchUtils}.

(** On evaluable inputs [__call__] returns, for every sample, its
    log-likelihood plus the prior's log-density, whatever the flag and the
    gradient mode. *)
Theorem call_adds_prior (self : BinomialGammaPotential) (theta : Tracked)
    (track_gradients mode : bool) (B T K C : nat) :
  evaluable self (atleast_2d (value theta)) B T K C ->
  shape (log_prob (prior self) (atleast_2d (value theta))) = [B] ->
  exists r,
    __call__ self theta track_gradients mode = (Ok r, mode) /\
    shape (value r) = [B] /\
    forall b, b < B ->
      get (value r) [b]
      = sadd (spec_iid self (atleast_2d (value theta)) K T b)
             (get (log_prob (prior self) (atleast_2d (value theta))) [b]).
Proof.
  intros Hev Hprior.
  destruct (evaluable_value self _ B T K C Hev)
    as (_ & out & _ & _ & Hout & Hshape & Hget).
  destruct (broadcast2_same1 sadd out
              (log_prob (prior self) (atleast_2d (value theta))) B Hshape Hprior)
    as (total & Hadd & Htotal_shape & Htotal_get).
  eexists. split; [| split].
  - unfold __call__, gbind, with_grad_enabled, op.
    cbn [fst snd value has_graph]. rewrite Hout. cbn [rbind fst snd value].
    unfold Torch.add. rewrite Hadd. reflexivity.
  - exact Htotal_shape.
  - intros b Hb. cbn [value]. rewrite (Htotal_get b Hb), (Hget b Hb).
    reflexivity.
Qed.

(** The failure for one observed trial reaches the caller: with exactly
    one trial and a batch of at least two samples [__call__] raises the
    shape assertion, with either flag, and leaves the gradient mode as it
    was. *)
Theorem call_single_trial_raises (self : BinomialGammaPotential)
    (theta : Tracked) (track_gradients mode : bool) (B K C : nat) :
  shape (atleast_2d (value theta)) = [B; S K] ->
  shape (x_o self) = [1; C] -> S K <= C -> 1 <= K -> 2 <= B ->
  per_trial_scaling self 1 ->
  __call__ self theta track_gradients mode = (Raise (AssertionError ""), mode).
Proof.
  intros Htheta Hx HC HK HB Hscaling.
  destruct (single_trial_square self _ B K C Htheta Hx HC HK HB Hscaling)
    as (_ & _ & _ & _ & _ & _ & _ & _ & _ & Hraise).
  unfold __call__, gbind, with_grad_enabled, op. cbn [fst snd value has_graph].
  rewrite Hraise. reflexivity.
Qed.

End Call.

End Evaluable.

Lemma iid_likelihood_sums_trials_witness :
  exists out,
    iid_likelihood Examples.potential_four_trials Examples.theta_two_samples
      = Ok out /\
    shape out = [2] /\
    forall b, b < 2 ->
      get out [b]
      = ssum (map (fun t =>
                     sadd (ssum (map (fun k =>
                                        binomial_log_prob
                                          (get Examples.theta_two_samples [b; 1 + k])
                                          (get (x_o Examples.potential_four_trials)
                                               [t; 1 + k]))
                                     (seq 0 1)))
                          (inverse_gamma_log_prob
                             (concentration_at Examples.potential_four_trials t)
                             (get Examples.theta_two_samples [b; 0])
                             (get (x_o Examples.potential_four_trials) [t; 0])))
                  (seq 0 4)).
Proof.
  apply (iid_likelihood_sums_trials Examples.potential_four_trials
           Examples.theta_two_samples 2 4 1 2).
  repeat split; try reflexivity; try lia.
Defined.


Lemma rate_only_batch_raises_witness :
  joint_likelihood Examples.potential_four_trials MoreExamples.theta_rate_only
  = Raise (RuntimeError "stack expects a non-empty TensorList") /\
  iid_likelihood Examples.potential_four_trials MoreExamples.theta_rate_only
  = Raise (RuntimeError "stack expects a non-empty TensorList").
Proof.
  apply (rate_only_batch_raises Examples.potential_four_trials
           MoreExamples.theta_rate_only 2 4 [2]).
  - reflexivity.
  - reflexivity.
  - lia.
Defined.

Lemma empty_batch_raises_witness :
  iid_likelihood Examples.potential_four_trials MoreExamples.theta_empty
  = Raise (RuntimeError
             "cannot reshape: the unspecified dimension size -1 can be any value").
Proof.
  apply (empty_batch_raises Examples.potential_four_trials
           MoreExamples.theta_empty 4 [2] [2]).
  - reflexivity.
  - reflexivity.
Defined.

Lemma missing_count_column_raises_witness :
  iid_likelihood MoreExamples.potential_no_counts Examples.theta_two_samples
  = Raise IndexError.
Proof.
  apply (missing_count_column_raises MoreExamples.potential_no_counts
           Examples.theta_two_samples 2 4 1 1).
  - reflexivity.
  - reflexivity.
  - lia.
  - lia.
  - lia.
Defined.

Lemma no_trial_raises_witness :
  iid_likelihood MoreExamples.potential_zero_trials Examples.theta_two_samples
  = Raise (RuntimeError
             "cannot reshape: the unspecified dimension size -1 can be any value").
Proof.
  apply (no_trial_raises MoreExamples.potential_zero_trials
           Examples.theta_two_samples 2 1 2 (Fin 1)).
  - reflexivity.
  - reflexivity.
  - lia.
  - lia.
  - lia.
  - reflexivity.
Defined.

(** The example datasets are evaluable for the batch of two samples. *)
Lemma ramp_evaluable (x : Tensor) :
  shape x = [2; 2] ->
  (forall t c, exists r, get x [t; c] = Fin r) ->
  evaluable (with_x_o MoreExamples.potential_ramp x)
    Examples.theta_two_samples 2 2 1 2.
Proof.
  intros Hx Hfin. repeat split; try reflexivity; try assumption; try lia.
  intros b t _ _. unfold spec_joint. cbn [with_x_o x_o seq map].
  destruct (Hfin t 0) as (r0 & ->). destruct (Hfin t (1 + 0)) as (r1 & ->).
  reflexivity.
Qed.

Lemma ramp_finite (t c : nat) : exists r, get MoreExamples.x_ramp [t; c] = Fin r.
Proof. destruct c; eexists; reflexivity. Qed.

Lemma ramp_swapped_finite (t c : nat) :
  exists r, get MoreExamples.x_ramp_swapped [t; c] = Fin r.
Proof. destruct c; eexists; reflexivity. Qed.

Lemma trial_order_irrelevant_witness :
  exists out out',
    iid_likelihood MoreExamples.potential_ramp Examples.theta_two_samples = Ok out /\
    iid_likelihood (with_x_o MoreExamples.potential_ramp MoreExamples.x_ramp_swapped)
      Examples.theta_two_samples = Ok out' /\
    shape out' = shape out /\
    forall b, b < 2 -> get out' [b] = get out [b].
Proof.
  apply (trial_order_irrelevant MoreExamples.potential_ramp
           Examples.theta_two_samples MoreExamples.x_ramp_swapped 2 2 1 2
           (fun t => 1 - t) (Fin 1)).
  - apply (ramp_evaluable MoreExamples.x_ramp eq_refl ramp_finite).
  - reflexivity.
  - repeat split; try reflexivity. apply perm_swap.
Defined.

Lemma trial_sets_add_up_witness :
  exists out1 out2 out12,
    iid_likelihood (with_x_o MoreExamples.potential_ramp MoreExamples.x_ramp)
      Examples.theta_two_samples = Ok out1 /\
    iid_likelihood (with_x_o MoreExamples.potential_ramp MoreExamples.x_ramp_swapped)
      Examples.theta_two_samples = Ok out2 /\
    iid_likelihood (with_x_o MoreExamples.potential_ramp MoreExamples.x_ramp_twice)
      Examples.theta_two_samples = Ok out12 /\
    forall b, b < 2 -> get out12 [b] = sadd (get out1 [b]) (get out2 [b]).
Proof.
  apply (trial_sets_add_up MoreExamples.potential_ramp Examples.theta_two_samples
           MoreExamples.x_ramp MoreExamples.x_ramp_swapped
           MoreExamples.x_ramp_twice 2 2 2 1 2 (Fin 1)).
  - reflexivity.
  - repeat split; try reflexivity;
      intros t c Ht Hc; destruct t as [| [| t]]; try lia; reflexivity.
  - apply (ramp_evaluable MoreExamples.x_ramp eq_refl ramp_finite).
  - apply (ramp_evaluable MoreExamples.x_ramp_swapped eq_refl ramp_swapped_finite).
Defined.

Lemma batch_is_per_sample_witness :
  exists out out_b,
    iid_likelihood Examples.potential_four_trials Examples.theta_two_samples
      = Ok out /\
    iid_likelihood Examples.potential_four_trials MoreExamples.theta_one_sample
      = Ok out_b /\
    shape out_b = [1] /\
    get out_b [0] = get out [1].
Proof.
  apply (batch_is_per_sample Examples.potential_four_trials
           Examples.theta_two_samples MoreExamples.theta_one_sample 2 4 1 2 1).
  - repeat split; try reflexivity; try lia.
  - lia.
  - reflexivity.
  - reflexivity.
Defined.

Lemma further_columns_ignored_witness :
  exists out out',
    iid_likelihood MoreExamples.potential_ramp Examples.theta_two_samples = Ok out /\
    iid_likelihood (with_x_o MoreExamples.potential_ramp MoreExamples.x_ramp_wide)
      Examples.theta_two_samples = Ok out' /\
    shape out' = shape out /\
    forall b, b < 2 -> get out' [b] = get out [b].
Proof.
  apply (further_columns_ignored MoreExamples.potential_ramp
           Examples.theta_two_samples MoreExamples.x_ramp_wide 2 2 1 2 3).
  - apply (ramp_evaluable MoreExamples.x_ramp eq_refl ramp_finite).
  - reflexivity.
  - lia.
  - intros t col Ht Hcol. destruct col as [| [| col]]; try lia; reflexivity.
Defined.

Lemma init_scalar_tensor_raises_witness :
  __init__ Examples.unit_box Examples.x_three_trials (Tens (Torch.full [] (Fin 2)))
  = Raise IndexError.
Proof.
  apply (init_scalar_tensor_raises Examples.unit_box Examples.x_three_trials
           (Torch.full [] (Fin 2))).
  right. reflexivity.
Defined.

Lemma per_trial_concentrations_line_up_witness :
  exists self out,
    __init__ Examples.unit_box Examples.x_four_trials (Tens MoreExamples.scaling_4)
      = Ok self /\
    iid_likelihood self Examples.theta_two_samples = Ok out /\
    shape out = [2] /\
    forall b, b < 2 ->
      get out [b]
      = iid_value Examples.x_four_trials
          (fun t => get MoreExamples.scaling_4 [t]) Examples.theta_two_samples 1 4 b.
Proof.
  apply (per_trial_concentrations_line_up Examples.unit_box Examples.x_four_trials
           Examples.theta_two_samples MoreExamples.scaling_4 2 4 1 2);
    try reflexivity; try lia.
Defined.

#[local] Existing Instance MoreExamples.keep_2d.

Lemma call_adds_prior_witness :
  exists r,
    __call__ Examples.potential_four_trials MoreExamples.tracked_two_samples
      false true = (Ok r, true) /\
    shape (value r) = [2] /\
    forall b, b < 2 ->
      get (value r) [b]
      = sadd (spec_iid Examples.potential_four_trials
                (atleast_2d (value MoreExamples.tracked_two_samples)) 1 4 b)
             (get (log_prob (prior Examples.potential_four_trials)
                     (atleast_2d (value MoreExamples.tracked_two_samples))) [b]).
Proof.
  apply (call_adds_prior Examples.potential_four_trials
           MoreExamples.tracked_two_samples false true 2 4 1 2).
  - repeat split; try reflexivity; try lia.
  - reflexivity.
Defined.

Lemma call_single_trial_raises_witness :
  __call__ Examples.potential_one_trial MoreExamples.tracked_two_samples
    false true = (Raise (AssertionError ""), true).
Proof.
  apply (call_single_trial_raises Examples.potential_one_trial
           MoreExamples.tracked_two_samples false true 2 1 2).
  - reflexivity.
  - reflexivity.
  - lia.
  - lia.
  - lia.
  - exact I.
Defined.

End Potential_More.
